(** * Paralympics REST API: the route handlers of [paralympics/routes.py]

    A shallow embedding of the Flask handlers for regions, events, login and
    registration, and the properties of the specification that concern them.

    Handlers are functions of the parsed request (what [request.get_json()]
    and the headers give) in a state-and-exception monad over the [World]:
    the three tables of the database, the number of times the clock has been
    read, and the application log.  A Python exception that no [except]
    clause catches is the outcome [Raise]; Flask answers it with status 500. *)

From stdpp Require Import base option list strings pretty gmap fin_maps.
From Stdlib Require Import ZArith Lia.

Local Open Scope Z_scope.
Local Open Scope string_scope.

(** ** JSON values *)

(** What [request.get_json()] returns and what [jsonify] takes: Python's
    [None], [bool], [int], [str], [list] and [dict] with string keys.
    Numbers are integers; no handler computes with them. *)
#[warnings="-register-all"]
Inductive json : Type :=
  | JNull
  | JBool (b : bool)
  | JNum (n : Z)
  | JStr (s : string)
  | JArr (l : list json)
  | JObj (m : gmap string json).

(** Python truthiness, as tested by [not v] and [if v]. *)
Definition truthy (v : json) : bool :=
  match v with
  | JNull => false
  | JBool b => b
  | JNum n => negb (Z.eqb n 0)
  | JStr s => negb (String.eqb s "")
  | JArr l => match l with [] => false | _ => true end
  | JObj m => negb (bool_decide (size m = 0%nat))
  end.

(** [d.get(k)] on a parsed body.  A missing key gives [None], which is also
    what JSON's [null] parses to. *)
Definition dict_get (m : gmap string json) (k : string) : json :=
  default JNull (m !! k).

(** ** Responses and exceptions *)

Inductive Body : Type :=
  | Json (j : json)
  | Text (s : string).

Record Response : Type := mkResponse { status : Z; body : Body }.

(** [make_response(msg, code)] and a handler's [return msg] (status 200). *)
Definition make_response (b : Body) (code : Z) : Response := mkResponse code b.
Definition message (s : string) : Body := Json (JObj {["message" := JStr s]}).

(** The exceptions that the handlers and their collaborators raise. *)
Inductive exn : Type :=
  | AttributeError
  | NoResultFound
  | MultipleResultsFound
  | InvalidRequestError
  | IntegrityError
  | FlushError
  | ValidationError
  | DecodeError
  | InvalidSignatureError
  | ExpiredSignatureError
  | HTTPException (code : Z) (description : string).

(** The subclasses of [sqlalchemy.exc.SQLAlchemyError], which is what the
    region handlers catch.  [NoResultFound] is one of them. *)
Definition is_SQLAlchemyError (e : exn) : bool :=
  match e with
  | NoResultFound | MultipleResultsFound | InvalidRequestError
  | IntegrityError | FlushError => true
  | _ => false
  end.

(** ** The world a request runs in *)

Record User : Type := mkUser { id : Z; email : string; password_hash : string }.

Inductive Level : Type := INFO | ERROR.

(** One call of [app.logger]: its level, the fixed text of the message, the
    value interpolated into it and, where the message carries one, the clock
    reading. *)
Record LogRecord : Type :=
  mkLog { level : Level; text : string; about : string; stamp : option Z }.

(** The region table maps a NOC code, its primary key, to the other columns
    of the row; the event table maps the numeric id to the other columns.
    [ticks] counts the calls of [datetime.utcnow()] so far. *)
Record World : Type := mkWorld {
  regions : gmap string (gmap string json);
  events : gmap Z (gmap string json);
  users : list User;
  ticks : nat;
  log : list LogRecord
}.

Definition set_regions (t : gmap string (gmap string json)) (w : World) : World :=
  mkWorld t (events w) (users w) (ticks w) (log w).
Definition set_events (t : gmap Z (gmap string json)) (w : World) : World :=
  mkWorld (regions w) t (users w) (ticks w) (log w).
Definition set_users (t : list User) (w : World) : World :=
  mkWorld (regions w) (events w) t (ticks w) (log w).

(** A signed token before it is written in compact form. *)
Record Jwt : Type := mkJwt {
  jwt_header : gmap string json;
  jwt_payload : gmap string json;
  jwt_signature : string
}.

(** What the handlers take from their surroundings: the system clock, the
    Flask configuration, the password hashing behind [User.set_password] and
    [User.check_password], PyJWT's encoding primitives, and the declarations
    of [paralympics/schemas.py] and [paralympics/models.py] that the handlers
    refer to. *)
Record Env : Type := mkEnv {
  (** the value of the n-th call of [datetime.utcnow()], in microseconds
      since the epoch *)
  utcnow_at : nat → Z;
  SECRET_KEY : string;
  generate_password_hash : string → string;
  check_password_hash : string → string → bool;
  (** base64url of the JSON text of a header or of a claim set *)
  b64url_json : gmap string json → string;
  (** base64url of the HMAC-SHA256 of a signing input under a key *)
  hs256 : string → string → string;
  (** the inverse reading of a compact token, [None] when it has no such
      reading *)
  jwt_parse : string → option Jwt;
  (** the field validators of [RegionSchema] and [EventSchema]; a name that
      is not a field of the schema validates no value *)
  region_field_ok : string → json → bool;
  event_field_ok : string → json → bool;
  (** the fields that [RegionSchema] requires on a full load *)
  region_required : list string;
  (** the mapped attributes of the model [Event] *)
  Event_attrs : list string
}.

(** ** The monad of handlers: state and exceptions *)

Inductive Result (A : Type) : Type :=
  | Ok (a : A)
  | Raise (e : exn).
Arguments Ok {A} a.
Arguments Raise {A} e.

Definition M (A : Type) : Type := World → Result A * World.

#[export] Instance M_ret : MRet M := λ A a w, (Ok a, w).
#[export] Instance M_bind : MBind M := λ A B k m w,
  match m w with
  | (Ok a, w') => k a w'
  | (Raise e, w') => (Raise e, w')
  end.

Definition raise {A} (e : exn) : M A := λ w, (Raise e, w).

(** [try: m  except <class> as e: h e]: the handler runs when the exception
    belongs to the class, in the world the exception left. *)
Definition try_except {A} (m : M A) (class : exn → bool) (h : exn → M A) : M A :=
  λ w, match m w with
       | (Ok a, w') => (Ok a, w')
       | (Raise e, w') => if class e then h e w' else (Raise e, w')
       end.

Definition get {A} (f : World → A) : M A := λ w, (Ok (f w), w).
Definition modify (f : World → World) : M unit := λ w, (Ok tt, f w).

(** What Flask sends for the outcome of a handler: the response it returned,
    the error page of an [abort], or status 500 for any other exception. *)
Definition respond (r : Result Response) : Response :=
  match r with
  | Ok resp => resp
  | Raise (HTTPException code description) => mkResponse code (Text description)
  | Raise _ => mkResponse 500 (Text "Internal Server Error")
  end.

(** ** Mapped objects and the session *)

(** A table maps the primary key of a row to its other columns.  Both
    mapped tables of the handlers are instances: [Region] with the text key
    [NOC], [Event] with the generated integer key [id]. *)
Section Orm.

Context {K : Type} `{Countable K}.
(** the name of the primary key attribute, and how its values are written in
    JSON and read from it *)
Variable pk : string.
Variable key_json : K → json.
Variable json_key : json → option K.
(** the key the store generates for a new row, when the key is generated *)
Variable autoincrement : option (gmap K (gmap string json) → K).

(** An instance of the mapped class: its attributes by name, the primary key
    among them, and the key of the row it was loaded from ([None] for an
    object that is not in the table yet). *)
Record Obj : Type := mkObj { origin : option K; fields : gmap string json }.

Definition loaded (r : K * gmap string json) : Obj :=
  mkObj (Some r.1) (<[pk := key_json r.1]> r.2).

(** [schema.dump(obj)], as far as the attributes that have a value go: the
    fields of the schema that the object leaves unset, which the schema
    writes as null, are not listed. *)
Definition dump (o : Obj) : json := JObj (fields o).

(** [schema.get_instance(data)]: the row whose primary key the data names. *)
Definition get_instance (data : gmap string json)
    (tbl : gmap K (gmap string json)) : option Obj :=
  k ← data !! pk ≫= json_key;
  a ← tbl !! k;
  Some (loaded (k, a)).

(** [schema.make_instance(data)], the post-load step of a schema with
    [load_instance]: the attributes in the data are set on the instance
    passed to [load], else on the row that [get_instance] finds, else a new
    object is made from the data alone. *)
Definition make_instance (instance : option Obj) (data : gmap string json)
    (tbl : gmap K (gmap string json)) : Obj :=
  let target := match instance with
                | Some o => Some o
                | None => get_instance data tbl
                end in
  match target with
  | Some o => mkObj (origin o) (data ∪ fields o)
  | None => mkObj None data
  end.

(** [db.session.add(obj); db.session.commit()]: an UPDATE of the row the
    object was loaded from, or an INSERT.  The primary key must be present
    and unique.  Of the constraints of the tables this is the only one
    modelled: the columns that models.py declares not null are not known
    here, so an INSERT is only as the store does it for an object that has
    all of them. *)
Definition flush (o : Obj) (tbl : gmap K (gmap string json))
  : Result (gmap K (gmap string json)) :=
  let row := delete pk (fields o) in
  match origin o with
  | Some k =>
      match fields o !! pk ≫= json_key with
      | Some k' =>
          if bool_decide (k' = k) then Ok (<[k := row]> tbl)
          else if bool_decide (is_Some (tbl !! k')) then Raise IntegrityError
          else Ok (<[k' := row]> (delete k tbl))
      | None => Raise IntegrityError
      end
  | None =>
      match fields o !! pk ≫= json_key with
      | Some k' =>
          if bool_decide (is_Some (tbl !! k')) then Raise IntegrityError
          else Ok (<[k' := row]> tbl)
      | None =>
          match fields o !! pk, autoincrement with
          | None, Some fresh | Some JNull, Some fresh =>
              Ok (<[fresh tbl := row]> tbl)
          | _, _ => Raise FlushError
          end
      end
  end.

End Orm.

Arguments Obj K : clear implicits.

(** [Region]: keyed by the text column [NOC]. *)
Definition json_string (v : json) : option string :=
  match v with JStr s => Some s | _ => None end.
Definition Region_loaded := loaded (K:=string) "NOC" JStr.
Definition Region_make_instance := make_instance (K:=string) "NOC" JStr json_string.
Definition Region_flush := flush (K:=string) "NOC" json_string None.

(** [Event]: keyed by the integer column [id], which the store generates as
    one more than the largest id in the table (as long as that is below the
    largest 64-bit integer, where the store turns to any unused id; the
    model has no such bound). *)
Definition json_int (v : json) : option Z :=
  match v with JNum n => Some n | _ => None end.
Definition next_id (ids : list Z) : Z := 1 + foldr Z.max 0 ids.
Definition Event_next_id (tbl : gmap Z (gmap string json)) : Z :=
  next_id (map_to_list tbl).*1.
Definition Event_loaded := loaded (K:=Z) "id" JNum.
Definition Event_make_instance := make_instance (K:=Z) "id" JNum json_int.
Definition Event_flush := flush (K:=Z) "id" json_int (Some Event_next_id).

(** [schema.load(data, partial=...)] up to the post-load step: the body must
    be an object, every field in it must validate, and on a full load the
    required fields must be there. *)
Definition schema_valid (ok : string → json → bool) (d : gmap string json) : bool :=
  bool_decide (map_Forall (λ k v, ok k v = true) d).

Definition has_fields (required : list string) (d : gmap string json) : bool :=
  forallb (λ k, bool_decide (is_Some (d !! k))) required.

Definition schema_validate (ok : string → json → bool) (required : list string)
    (partial : bool) (data : json) : M (gmap string json) :=
  match data with
  | JObj d =>
      if schema_valid ok d && (partial || has_fields required d)
      then mret d else raise ValidationError
  | _ => raise ValidationError
  end.

(** Lifting a result of the session to the world. *)
Definition commit {T} (r : Result T) (store : T → World → World) : M unit :=
  match r with
  | Ok t => modify (store t)
  | Raise e => raise e
  end.

(** [abort(code, description=d)] *)
Definition abort {A} (code : Z) (d : string) : M A := raise (HTTPException code d).

Section Handlers.

Context (E : Env).

(** [datetime.utcnow()]: every call reads the clock anew. *)
Definition utcnow : M Z :=
  λ w, (Ok (utcnow_at E (ticks w)),
        mkWorld (regions w) (events w) (users w) (S (ticks w)) (log w)).

Definition logger (l : Level) (t a : string) (s : option Z) : M unit :=
  modify (λ w, mkWorld (regions w) (events w) (users w) (ticks w)
                 (log w ++ [mkLog l t a s])).

(** *** Queries *)

(** [.scalar_one()] and [.scalar_one_or_none()] on the rows of a result. *)
Definition scalar_one {A} (rows : list A) : M A :=
  match rows with
  | [] => raise NoResultFound
  | [r] => mret r
  | _ => raise MultipleResultsFound
  end.

Definition scalar_one_or_none {A} (rows : list A) : M (option A) :=
  match rows with
  | [] => mret None
  | [r] => mret (Some r)
  | _ => raise MultipleResultsFound
  end.

(** [db.select(User).filter_by(email=v)] for a value that is a string or
    null: the column holds text and is not null, so null selects no row.
    Values of the other JSON types are outside the model (the store
    compares a number with the text and refuses an array or an object); the
    properties below take the email as a string or as null. *)
Definition select_users_by_email (v : json) (w : World) : list User :=
  match v with
  | JStr e => filter (λ u, email u = e) (users w)
  | _ => []
  end.

(** [db.select(Region).filter_by(NOC=code)]: the key and the other columns of
    the row with that primary key. *)
Definition select_regions_by_NOC (code : string) (w : World)
  : list (string * gmap string json) :=
  match regions w !! code with
  | Some a => [(code, a)]
  | None => []
  end.

(** [d.get(k)] in Python: only a [dict] has the method. *)
Definition py_get (d : json) (k : string) : M json :=
  match d with
  | JObj m => mret (dict_get m k)
  | _ => raise AttributeError
  end.

(** *** Passwords *)

(** Modelled from the spec: [User.check_password] is a method declared in
    paralympics/models.py, which is not among the sources.  §4.1: given a
    plaintext password and a stored hash, return the boolean result of a
    salted hash comparison; no side effects.  The comparison and the hashing
    are those of the environment; they are defined on strings, and any other
    value makes them fail with [AttributeError], as a call of a string
    method on it does. *)
Definition check_password (u : User) (password : json) : M bool :=
  match password with
  | JStr p => mret (check_password_hash E (password_hash u) p)
  | _ => raise AttributeError
  end.

(** Modelled from the spec: [User.set_password], of paralympics/models.py
    like [check_password].  §3: the password hash is derived, the password
    is never stored in plaintext.  The result is the hash that the handler
    stores with the new user. *)
Definition set_password (password : json) : M string :=
  match password with
  | JStr p => mret (generate_password_hash E p)
  | _ => raise AttributeError
  end.

(** *** Tokens *)

(** [timedelta(minutes=n)], in microseconds like the clock. *)
Definition timedelta_minutes (n : Z) : Z := n * 60 * 1000000.

(** PyJWT writes a [datetime] claim as whole seconds since the epoch
    ([timegm(dt.utctimetuple())]). *)
Definition numeric_date (dt : Z) : Z := dt / 1000000.

Definition jwt_signing_input (h p : gmap string json) : string :=
  b64url_json E h ++ "." ++ b64url_json E p.

(** [jwt.encode(payload, key, headers=headers, algorithm='HS256')]: the
    caller's headers are added to the standard ones, the signing input is
    signed, and the three segments are joined by dots. *)
Definition jwt_sign (payload : gmap string json) (key : string)
    (headers : gmap string json) : Jwt :=
  let header := headers ∪ {["typ" := JStr "JWT"; "alg" := JStr "HS256"]} in
  mkJwt header payload (hs256 E key (jwt_signing_input header payload)).

Definition jwt_compact (t : Jwt) : string :=
  jwt_signing_input (jwt_header t) (jwt_payload t) ++ "." ++ jwt_signature t.

Definition jwt_encode (payload : gmap string json) (key : string)
    (headers : gmap string json) : string :=
  jwt_compact (jwt_sign payload key headers).

(** Validation of a parsed token at the time [now] (microseconds): the
    signature must be the one the key gives, and an ["exp"] claim must lie
    in the future: PyJWT rejects [exp <= now].  This is the validation of a
    token whose ["iat"] is not in the future; PyJWT's refusal of one that
    is not yet issued is not modelled. *)
Definition jwt_verify (t : Jwt) (key : string) (now : Z)
  : Result (gmap string json) :=
  if negb (String.eqb (jwt_signature t)
             (hs256 E key (jwt_signing_input (jwt_header t) (jwt_payload t))))
  then Raise InvalidSignatureError
  else match jwt_payload t !! "exp" with
       | None => Ok (jwt_payload t)
       | Some (JNum e) =>
           if Z.leb (e * 1000000) now then Raise ExpiredSignatureError
           else Ok (jwt_payload t)
       | Some _ => Raise DecodeError
       end.

(** [jwt.decode(token, key, algorithms=['HS256'])]. *)
Definition jwt_decode (token : string) (key : string) (now : Z)
  : Result (gmap string json) :=
  match jwt_parse E token with
  | None => Raise DecodeError
  | Some t => jwt_verify t key now
  end.

(** The claim set and the header that [login] signs for a user, from the two
    clock readings it takes while building the payload. *)
Definition login_payload (u : User) (t_exp t_iat : Z) : gmap string json :=
  {[ "exp" := JNum (numeric_date (t_exp + timedelta_minutes 5));
     "iat" := JNum (numeric_date t_iat);
     "sub" := JNum (id u) ]}.

Definition login_headers (u : User) : gmap string json :=
  {[ "user_id" := JNum (id u) ]}.

(** *** POST /login *)

Definition login (auth : json) : M Response :=
  missing ← (if negb (truthy auth) then mret true else
             e ← py_get auth "email";
             if negb (truthy e) then mret true else
             p ← py_get auth "password";
             mret (negb (truthy p)));
  if missing : bool then
    mret (make_response (message "Missing email or password") 401)
  else
    e ← py_get auth "email";
    rows ← get (select_users_by_email e);
    user ← scalar_one_or_none rows;
    match user with
    | None =>
        mret (make_response
                (message "No account for that email address. Please register.")
                401)
    | Some user =>
        p ← py_get auth "password";
        ok ← check_password user p;
        if ok : bool then
          t_log ← utcnow;
          logger INFO "logged in at" (email user) (Some t_log);;
          t_exp ← utcnow;
          t_iat ← utcnow;
          let token := jwt_encode (login_payload user t_exp t_iat)
                         (SECRET_KEY E) (login_headers user) in
          mret (make_response (Json (JObj {["token" := JStr token]})) 201)
        else
          mret (make_response (message "Incorrect password.") 403)
    end.

(** What a request brings as its body, as [request.get_json()] sees it: no
    JSON content type at all, bytes that do not decode as JSON (an empty
    body among them), or a JSON value. *)
Inductive RequestBody : Type :=
  | NotJson
  | Undecodable
  | Decoded (j : json).

(** [request.get_json()], with its defaults: it aborts with 415 when the
    request does not announce JSON and with 400 when the body does not
    decode; only a decoded value reaches the handler. *)
Definition get_json (b : RequestBody) : M json :=
  match b with
  | NotJson => abort 415 "Unsupported Media Type"
  | Undecodable => abort 400 "Bad Request"
  | Decoded j => mret j
  end.

(** POST /login from the body of the request: the first statement of the
    handler, [auth = request.get_json()], and then the rest of it. *)
Definition login_request (b : RequestBody) : M Response :=
  auth ← get_json b;
  login auth.

(** *** POST /register *)

(** The INSERT of a new user: the store assigns the id.  The email column
    holds text, is not null and is unique; the model covers an email that
    is a string or null, and the properties below take no other. *)
Definition insert_user (e : json) (h : string) (us : list User)
  : Result (User * list User) :=
  match e with
  | JStr a =>
      if bool_decide (a ∈ email <$> us) then Raise IntegrityError
      else let u := mkUser (next_id (id <$> us)) a h in Ok (u, (us ++ [u])%list)
  | _ => Raise IntegrityError
  end.

(** The body of the [try] block of [register]: the new user, its hashed
    password, the commit and the line in the log. *)
Definition register_create (post_data : json) : M Response :=
  e ← py_get post_data "email";
  p ← py_get post_data "password";
  h ← set_password p;
  us ← get users;
  commit (insert_user e h us) (λ r, set_users r.2);;
  t ← utcnow;
  logger INFO "registered at" (default "" (json_string e)) (Some t);;
  mret (make_response (message "Successfully registered.") 201).

Definition register (post_data : json) : M Response :=
  e ← py_get post_data "email";
  rows ← get (select_users_by_email e);
  user ← scalar_one_or_none rows;
  match user with
  | None =>
      try_except (register_create post_data)
        (λ _, true)
        (λ _, mret (make_response
                      (message "An error occurred. Please try again.") 500))
  | Some _ =>
      mret (make_response (message "User already exists. Please Log in.") 409)
  end.

(** *** The region routes *)

(** GET /regions/<code> *)
Definition get_region (code : string) : M Response :=
  try_except
    (rows ← get (select_regions_by_NOC code);
     region ← scalar_one rows;
     mret (make_response (Json (dump (Region_loaded region))) 200))
    (λ e, match e with NoResultFound => true | _ => false end)
    (λ _, logger ERROR "Region code was not found" code None;;
          abort 404 "Region not found").

(** GET /regions.  The rows come in the order of the store. *)
Definition get_regions : M Response :=
  try_except
    (all_regions ← get (λ w, map_to_list (regions w));
     try_except
       (mret (make_response (Json (JArr (dump <$> (Region_loaded <$> all_regions)))) 200))
       (λ e, match e with ValidationError => true | _ => false end)
       (λ _, logger ERROR "A Marshmallow ValidationError occurred dumping all regions"
               "" None;;
             mret (make_response (message "An Internal Server Error occurred.") 500)))
    is_SQLAlchemyError
    (λ _, logger ERROR "An error occurred while fetching regions" "" None;;
          mret (make_response (message "An Internal Server Error occurred.") 500)).

(** POST /regions *)
Definition add_region (json_data : json) : M Response :=
  try_except
    (data ← schema_validate (region_field_ok E) (region_required E) false json_data;
     tbl ← get regions;
     let region := Region_make_instance None data tbl in
     try_except
       (commit (Region_flush region tbl) set_regions;;
        mret (make_response
                (message ("Region added with NOC= " ++
                          default "None" (fields region !! "NOC" ≫= json_string)))
                200))
       is_SQLAlchemyError
       (λ _, logger ERROR "An error occurred saving the Region" "" None;;
             mret (make_response (message "An Internal Server Error occurred.") 500)))
    (λ e, match e with ValidationError => true | _ => false end)
    (λ _, logger ERROR "A Marshmallow ValidationError loading the region" "" None;;
          mret (make_response (message "An Internal Server Error occurred.") 500)).

(** DELETE /regions/<noc_code> *)
Definition delete_region (noc_code : string) : M Response :=
  try_except
    (rows ← get (select_regions_by_NOC noc_code);
     region ← scalar_one rows;
     modify (λ w, set_regions (delete region.1 (regions w)) w);;
     mret (make_response (message ("Region " ++ noc_code ++ " deleted.")) 200))
    is_SQLAlchemyError
    (λ _, logger ERROR "A SQLAlchemy database error occurred" "" None;;
          mret (make_response (message ("Region " ++ noc_code ++ " not found")) 500)).

(** The second half of [update_region], from the call of
    [region_schema.load] on: the merge of the body into the target and the
    commit. *)
Definition update_region_merge (noc_code : string)
    (existing_region : option (Obj string)) (region_json : json) : M Response :=
  loaded ← try_except
    (data ← schema_validate (region_field_ok E) (region_required E) true region_json;
     tbl ← get regions;
     mret (inl (Region_make_instance existing_region data tbl)))
    (λ e, match e with ValidationError => true | _ => false end)
    (λ _, mret (inr (make_response (Text "Failed Marshmallow schema validation") 500)));
  match loaded with
  | inr resp => mret resp
  | inl region_update =>
      try_except
        (tbl ← get regions;
         commit (Region_flush region_update tbl) set_regions;;
         mret (make_response (message ("Region " ++ noc_code ++ " updated.")) 200))
        is_SQLAlchemyError
        (λ _, mret (make_response (Text "An Internal Server Error occurred.") 500))
  end.

(** PATCH /regions/<noc_code>, without its decorator. *)
Definition update_region (noc_code : string) (region_json : json) : M Response :=
  found ← try_except
    (rows ← get (select_regions_by_NOC noc_code);
     existing_region ← scalar_one_or_none rows;
     mret (inl (Region_loaded <$> existing_region)))
    is_SQLAlchemyError
    (λ _, mret (inr (make_response
                       (message ("Region " ++ noc_code ++ " not found")) 404)));
  match found with
  | inr resp => mret resp
  | inl existing_region => update_region_merge noc_code existing_region region_json
  end.

(** Modelled from the spec: the decorator [token_required] is defined in
    paralympics/decorators.py, which is not among the sources.  §4.5: inspect
    the [Authorization] header; if absent, reject 401 ("authentication token
    missing"); if present, verify the signature against the server secret
    and check expiry; if invalid or expired, reject 401; on success run the
    handler.  The credential store is not consulted.  The spec fixes no text
    for the second rejection. *)
Definition token_required (f : M Response) (authorization : option string)
  : M Response :=
  match authorization with
  | None => mret (make_response (message "Authentication token missing") 401)
  | Some token =>
      now ← utcnow;
      match jwt_decode token (SECRET_KEY E) now with
      | Ok _ => f
      | Raise _ => mret (make_response (message "Invalid or expired token") 401)
      end
  end.

(** PATCH /regions/<noc_code> as routed: the decorated handler, applied to
    the [Authorization] header and the parsed body of the request. *)
Definition patch_region (noc_code : string) (authorization : option string)
    (region_json : json) : M Response :=
  token_required (update_region noc_code region_json) authorization.

(** *** The event routes *)

Definition has_int (o : Obj Z) (attr : string) (v : Z) : bool :=
  match fields o !! attr with
  | Some (JNum n) => Z.eqb n v
  | _ => false
  end.

(** [db.select(Event).filter_by(attr=v)].  Filtering by a name that is not a
    mapped attribute of the class raises [InvalidRequestError]. *)
Definition select_events_by (attr : string) (v : Z)
  : M (list (Z * gmap string json)) :=
  if bool_decide (attr ∈ Event_attrs E) then
    tbl ← get events;
    mret (filter (λ r, has_int (Event_loaded r) attr v = true) (map_to_list tbl))
  else raise InvalidRequestError.

(** GET /events *)
Definition get_events : M Response :=
  all_events ← get (λ w, map_to_list (events w));
  mret (make_response (Json (JArr (dump <$> (Event_loaded <$> all_events)))) 200).

(** GET /events/<event_id> *)
Definition get_event (event_id : Z) : M Response :=
  rows ← select_events_by "id" event_id;
  event ← scalar_one rows;
  mret (make_response (Json (dump (Event_loaded event))) 200).

(** DELETE /events/<int:event_id> *)
Definition delete_event (event_id : Z) : M Response :=
  rows ← select_events_by "id" event_id;
  event ← scalar_one rows;
  modify (λ w, set_events (delete event.1 (events w)) w);;
  mret (make_response (message ("Event " ++ pretty event_id ++ " deleted.")) 200).

(** PATCH /events/<event_id> *)
Definition event_update (event_id : Z) (event_json : json) : M Response :=
  rows ← select_events_by "event_id" event_id;
  existing_event ← scalar_one_or_none rows;
  data ← schema_validate (event_field_ok E) [] true event_json;
  tbl ← get events;
  let event_update := Event_make_instance (Event_loaded <$> existing_event) data tbl in
  commit (Event_flush event_update tbl) set_events;;
  mret (make_response
          (message ("Event with id=" ++ pretty event_id ++ " updated.")) 200).

(** [event.id] once the session has committed the object: the id among its
    attributes, else the one the store generated for it. *)
Definition Event_identity (o : Obj Z) (tbl : gmap Z (gmap string json)) : Z :=
  match fields o !! "id" ≫= json_int with
  | Some k => k
  | None => Event_next_id tbl
  end.

Section EventCreation.

(** the fields that [EventSchema] requires on a full load, declared in
    paralympics/schemas.py *)
Variable event_required : list string.

(** POST /events *)
Definition add_event (ev_json : json) : M Response :=
  data ← schema_validate (event_field_ok E) event_required false ev_json;
  tbl ← get events;
  let event := Event_make_instance None data tbl in
  commit (Event_flush event tbl) set_events;;
  mret (make_response
          (message ("Event added with id= " ++ pretty (Event_identity event tbl))) 200).

End EventCreation.

End Handlers.

(** ** A test configuration

    A concrete environment and a small database, in the manner of the
    fixtures of the test suite: one registered user, the region [NEW] that
    tests/test_auth.py edits and one other region, one event. *)
Module Fixture.

Definition hash (p : string) : string := "pbkdf2:" ++ p.

Definition b64 (m : gmap string json) : string :=
  match m !! "exp", m !! "sub" with
  | Some (JNum e), Some (JNum s) => "claims-" ++ pretty s ++ "-" ++ pretty e
  | _, _ => "header"
  end.

Definition mac (key input : string) : string := "hmac-" ++ key ++ "-" ++ input.

Definition text_field (names : list string) (k : string) (v : json) : bool :=
  bool_decide (k ∈ names) && match v with JStr _ => true | _ => false end.

(** The clock starts just before a second ends and advances by a
    microsecond with every reading. *)
Definition base_env : Env := {|
  utcnow_at n := 1700000000999998 + Z.of_nat n;
  SECRET_KEY := "secret";
  generate_password_hash := hash;
  check_password_hash h p := String.eqb h (hash p);
  b64url_json := b64;
  hs256 := mac;
  jwt_parse _ := None;
  region_field_ok := text_field ["NOC"; "region"; "notes"];
  event_field_ok := text_field ["type"; "host"];
  region_required := ["NOC"; "region"];
  Event_attrs := ["id"; "type"; "host"]
|}.

Definition user1 : User := mkUser 1 "ann@example.com" (hash "s3cret").

Definition world : World := {|
  regions := {[ "NEW" := {[ "region" := JStr "New Region"; "notes" := JStr "A note" ]};
                "GBR" := {[ "region" := JStr "Great Britain" ]} ]};
  events := {[ 1 := {[ "type" := JStr "summer"; "host" := JStr "Rome" ]} ]};
  users := [user1];
  ticks := 0;
  log := []
|}.

(** The token that [login] issues to the user at the first readings of the
    clock, and an environment whose parser reads it back. *)
Definition token : Jwt :=
  jwt_sign base_env (login_payload user1 1700000000999999 1700000001000000)
    "secret" (login_headers user1).

Definition env : Env := {|
  utcnow_at := utcnow_at base_env;
  SECRET_KEY := SECRET_KEY base_env;
  generate_password_hash := hash;
  check_password_hash := check_password_hash base_env;
  b64url_json := b64;
  hs256 := mac;
  jwt_parse s := if String.eqb s (jwt_compact base_env token) then Some token else None;
  region_field_ok := region_field_ok base_env;
  event_field_ok := event_field_ok base_env;
  region_required := region_required base_env;
  Event_attrs := Event_attrs base_env
|}.

Definition credentials (e p : string) : json :=
  JObj {[ "email" := JStr e; "password" := JStr p ]}.

End Fixture.


(** ** The vocabulary of the properties *)

(** The invariant of the credential store (§3): at most one user per
    email. *)
Definition unique_emails (w : World) : Prop := NoDup (email <$> users w).

(** One step of symbolic execution of a handler: the monad operations are
    unfolded and the matches on their results reduced, nothing else. *)
Ltac run :=
  unfold mbind, M_bind, mret, M_ret, raise, get, modify, try_except, abort;
  cbv beta iota zeta.

Definition missing_credentials : Response :=
  make_response (message "Missing email or password") 401.
Definition no_account : Response :=
  make_response (message "No account for that email address. Please register.") 401.
Definition incorrect_password : Response :=
  make_response (message "Incorrect password.") 403.

(** The token that a successful [login] of [u] signs in the world [w]: the
    first reading of the clock goes to the log, the second to ["exp"], the
    third to ["iat"]. *)
Definition issued (E : Env) (u : User) (w : World) : Jwt :=
  jwt_sign E
    (login_payload u (utcnow_at E (S (ticks w))) (utcnow_at E (S (S (ticks w)))))
    (SECRET_KEY E) (login_headers u).

Definition logged_in (E : Env) (u : User) (w : World) : World :=
  mkWorld (regions w) (events w) (users w) (S (S (S (ticks w))))
    (log w ++ [mkLog INFO "logged in at" (email u) (Some (utcnow_at E (ticks w)))]).

(** The guard has read the clock once when the handler starts. *)
Definition guarded (w : World) : World :=
  mkWorld (regions w) (events w) (users w) (S (ticks w)) (log w).

Definition region_updated (noc_code : string) : Response :=
  make_response (message ("Region " ++ noc_code ++ " updated.")) 200.
Definition validation_failed : Response :=
  make_response (Text "Failed Marshmallow schema validation") 500.
Definition update_failed : Response :=
  make_response (Text "An Internal Server Error occurred.") 500.

Definition server_error : Response :=
  make_response (message "An Internal Server Error occurred.") 500.

Definition registered : Response :=
  make_response (message "Successfully registered.") 201.
Definition already_exists : Response :=
  make_response (message "User already exists. Please Log in.") 409.
Definition generic_failure : Response :=
  make_response (message "An error occurred. Please try again.") 500.

(** The world after a successful registration: one more user, one more
    reading of the clock, one more line in the log. *)
Definition with_user (E : Env) (u : User) (w : World) : World :=
  mkWorld (regions w) (events w) (users w ++ [u]) (S (ticks w))
    (log w ++ [mkLog INFO "registered at" (email u) (Some (utcnow_at E (ticks w)))]).

(** ** Properties *)

(** *** The lookup of a user *)

Lemma filter_email_none (e : string) (us : list User) :
  (∀ u, u ∈ us → email u ≠ e) → filter (λ u, email u = e) us = [].
Proof.
  induction us as [|u us IH]; intros Hno; [reflexivity|].
  rewrite filter_cons. destruct (decide (email u = e)) as [Heq|_].
  - exfalso. apply (Hno u); [left | exact Heq].
  - apply IH. intros u' Hu'. apply Hno. by right.
Qed.

Lemma filter_email_unique (e : string) (us : list User) (u : User) :
  NoDup (email <$> us) → u ∈ us → email u = e →
  filter (λ u, email u = e) us = [u].
Proof.
  induction us as [|u' us IH]; intros Hnd Hin He; [by apply elem_of_nil in Hin|].
  rewrite fmap_cons in Hnd. apply NoDup_cons in Hnd as [Hfresh Hnd].
  rewrite filter_cons. apply elem_of_cons in Hin as [Heq|Hin].
  - subst u'. rewrite decide_True by done. f_equal. apply filter_email_none.
    intros v Hv Hve. apply Hfresh.
    replace (email u) with (email v) by congruence.
    by apply list_elem_of_fmap_2.
  - rewrite decide_False; [by apply IH|].
    intros Hu'. apply Hfresh.
    replace (email u') with (email u) by congruence.
    by apply list_elem_of_fmap_2.
Qed.

Lemma select_users_none (e : string) (w : World) :
  (∀ u, u ∈ users w → email u ≠ e) → select_users_by_email (JStr e) w = [].
Proof. apply filter_email_none. Qed.

Lemma select_users_unique (e : string) (w : World) (u : User) :
  unique_emails w → u ∈ users w → email u = e →
  select_users_by_email (JStr e) w = [u].
Proof. apply filter_email_unique. Qed.


(** *** Truthiness of strings *)

Lemma truthy_JStr (s : string) : truthy (JStr s) = true ↔ s ≠ "".
Proof.
  simpl. destruct (String.eqb_spec s ""); split; intros; simplify_eq; done.
Qed.

(** *** Compact tokens are never empty *)

Lemma append_dot_nonempty (s t : string) : s ++ "." ++ t ≠ "".
Proof. destruct s; discriminate. Qed.

Lemma jwt_encode_nonempty (E : Env) payload key headers :
  jwt_encode E payload key headers ≠ "".
Proof. unfold jwt_encode, jwt_compact. apply append_dot_nonempty. Qed.

(** *** The paths of [login] *)

Lemma truthy_dict_get (m : gmap string json) (k : string) :
  truthy (dict_get m k) = true → truthy (JObj m) = true.
Proof.
  unfold dict_get. destruct (m !! k) as [v|] eqn:Hk; [|discriminate].
  intros _. simpl. apply negb_true_iff, bool_decide_eq_false.
  intros Hsz. apply map_size_empty_inv in Hsz. subst m.
  by rewrite lookup_empty in Hk.
Qed.

Lemma login_falsy_body (E : Env) (auth : json) (w : World) :
  truthy auth = false → login E auth w = (Ok missing_credentials, w).
Proof. intros H. unfold login. run. rewrite H. reflexivity. Qed.

Lemma login_falsy_field (E : Env) (m : gmap string json) (w : World) :
  truthy (dict_get m "email") = false ∨ truthy (dict_get m "password") = false →
  login E (JObj m) w = (Ok missing_credentials, w).
Proof.
  intros H. unfold login, py_get. run.
  destruct (truthy (JObj m)); [|reflexivity]. cbn [negb]. run.
  destruct (truthy (dict_get m "email")); [|reflexivity]. cbn [negb]. run.
  destruct H as [H|H]; [discriminate|]. rewrite H. reflexivity.
Qed.

Lemma login_credentials (E : Env) (m : gmap string json) (e p : string) (w : World) :
  dict_get m "email" = JStr e → dict_get m "password" = JStr p →
  e ≠ "" → p ≠ "" →
  login E (JObj m) w =
    match select_users_by_email (JStr e) w with
    | [] => (Ok no_account, w)
    | [u] =>
        if check_password_hash E (password_hash u) p
        then (Ok (make_response
                    (Json (JObj {["token" := JStr (jwt_compact E (issued E u w))]}))
                    201),
              logged_in E u w)
        else (Ok incorrect_password, w)
    | _ => (Raise MultipleResultsFound, w)
    end.
Proof.
  intros He Hp Hne Hnp.
  assert (truthy (dict_get m "email") = true) as Hte
    by (rewrite He; by apply truthy_JStr).
  assert (truthy (dict_get m "password") = true) as Htp
    by (rewrite Hp; by apply truthy_JStr).
  pose proof (truthy_dict_get _ _ Hte) as Hm.
  unfold login, py_get. run.
  rewrite Hm, Hte, Htp. cbn [negb]. run. rewrite He, Hp.
  destruct (select_users_by_email (JStr e) w) as [|u [|u' us]]; try reflexivity.
  unfold scalar_one_or_none, check_password. run.
  destruct (check_password_hash E (password_hash u) p); reflexivity.
Qed.

(** *** C1: the checks of [login] and their order *)

Lemma login_request_decoded (E : Env) (auth : json) (w : World) :
  login_request E (Decoded auth) w = login E auth w.
Proof. unfold login_request, get_json. run. by destruct (login E auth w) as [[?|?] ?]. Qed.

(** C1, as amended.  A request without a JSON body never reaches the checks
    of [login]: [request.get_json()] answers it, with 415 when the request
    announces no JSON and with 400 when the body does not decode, as an
    empty body does not.  For a body that decodes, the first check rejects
    with 401 and "Missing email or password" every value that is falsy
    (null, an empty object) and every object whose email or password is
    missing, null or otherwise falsy, the empty string included.  Past that
    check, for an email and a password that are strings: if no user has that
    email the answer is 401 with the message of the lookup; else, if the
    password does not match the stored hash, 403; else 201 with a body that
    holds a non-empty token string.  Each check is reached only when the
    ones before it have passed. *)
Theorem login_checks_in_order (E : Env) (w : World) (b : RequestBody) :
  let r := respond (login_request E b w).1 in
  (b = NotJson → status r = 415) ∧
  (b = Undecodable → status r = 400) ∧
  (∀ auth, b = Decoded auth →
     (truthy auth = false → r = missing_credentials) ∧
     (∀ m, auth = JObj m →
        (truthy (dict_get m "email") = false ∨
         truthy (dict_get m "password") = false →
         r = missing_credentials) ∧
        (∀ e p, dict_get m "email" = JStr e → dict_get m "password" = JStr p →
                e ≠ "" → p ≠ "" →
           ((∀ u, u ∈ users w → email u ≠ e) → r = no_account) ∧
           (∀ u, unique_emails w → u ∈ users w → email u = e →
              (check_password_hash E (password_hash u) p = false →
               r = incorrect_password) ∧
              (check_password_hash E (password_hash u) p = true →
               status r = 201 ∧
               ∃ token, body r = Json (JObj {["token" := JStr token]}) ∧
                        token ≠ ""))))).
Proof.
  intros r. subst r. split; [by intros ->|]. split; [by intros ->|].
  intros auth ->. rewrite login_request_decoded. split.
  - intros H. by rewrite login_falsy_body.
  - intros m ->. split.
    + intros H. by rewrite login_falsy_field.
    + intros e p He Hp Hne Hnp. rewrite (login_credentials E m e p w He Hp Hne Hnp).
      split.
      * intros Hno. by rewrite select_users_none.
      * intros u Huniq Hin Heq. rewrite (select_users_unique e w u Huniq Hin Heq).
        split; intros ->; [reflexivity|].
        split; [reflexivity|]. eexists. split; [reflexivity|].
        apply jwt_encode_nonempty.
Qed.

(** The 201 path of C1 on the test configuration. *)
Lemma login_checks_in_order_witness :
  status (respond (login_request Fixture.env
                     (Decoded (Fixture.credentials "ann@example.com" "s3cret"))
                     Fixture.world).1) = 201.
Proof.
  destruct (login_checks_in_order Fixture.env Fixture.world
              (Decoded (Fixture.credentials "ann@example.com" "s3cret")))
    as (_ & _ & H0).
  destruct (H0 _ eq_refl) as [_ H].
  destruct (H _ eq_refl) as [_ H'].
  destruct (H' "ann@example.com" "s3cret") as [_ H''];
    [reflexivity | reflexivity | discriminate | discriminate |].
  destruct (H'' Fixture.user1) as [_ [Hs _]].
  - unfold unique_emails. apply (bool_decide_unpack _). vm_compute. exact I.
  - apply list_elem_of_here.
  - reflexivity.
  - reflexivity.
  - exact Hs.
Defined.

(** C1 as stated fails: a body that has both fields, an email that belongs
    to a user and a password (the empty string) that does not match the
    stored hash is answered 401 "Missing email or password", not 403. *)
Lemma login_empty_password_is_401_not_403 :
  let auth := Fixture.credentials "ann@example.com" "" in
  (∃ m, auth = JObj m ∧ is_Some (m !! "email") ∧ is_Some (m !! "password")) ∧
  (∃ u, u ∈ users Fixture.world ∧ email u = "ann@example.com" ∧
        check_password_hash Fixture.env (password_hash u) "" = false) ∧
  respond (login Fixture.env auth Fixture.world).1 = missing_credentials ∧
  status (respond (login Fixture.env auth Fixture.world).1) ≠ 403.
Proof.
  split; [|split; [|split]].
  - eexists. split; [reflexivity|]. split; vm_compute; eauto.
  - exists Fixture.user1. split; [apply list_elem_of_here|]. split; reflexivity.
  - vm_compute. reflexivity.
  - vm_compute. discriminate.
Qed.

(** *** C2: the claims of an issued token *)

Lemma numeric_date_plus_5min (t : Z) :
  numeric_date (t + timedelta_minutes 5) = numeric_date t + 300.
Proof.
  unfold numeric_date, timedelta_minutes.
  replace (t + 5 * 60 * 1000000) with (t + 300 * 1000000) by lia.
  apply Z.div_add. lia.
Qed.

Lemma numeric_date_mono (t t' : Z) : (t ≤ t')%Z → (numeric_date t ≤ numeric_date t')%Z.
Proof. intros H. unfold numeric_date. apply Z.div_le_mono; lia. Qed.

Lemma jwt_verify_expired (E : Env) (t : Jwt) (key : string) (e now : Z) :
  jwt_signature t = hs256 E key (jwt_signing_input E (jwt_header t) (jwt_payload t)) →
  jwt_payload t !! "exp" = Some (JNum e) →
  (e * 1000000 ≤ now)%Z →
  jwt_verify E t key now = Raise ExpiredSignatureError.
Proof.
  intros Hsig Hexp Hnow. unfold jwt_verify.
  rewrite <- Hsig, String.eqb_refl. cbn [negb]. rewrite Hexp.
  destruct (Z.leb_spec (e * 1000000) now); [reflexivity | lia].
Qed.

(** C2, as amended.  A successful login answers 201 with the compact form
    of a token whose subject and whose [user_id] header are the id of the
    user, whose expiry is the second in which the handler read the clock for
    it plus exactly 300 seconds, and whose issued-at is the second of a
    separate, later reading of the clock: the expiry is issued-at plus 5
    minutes when both readings fall in the same second, and never later than
    that when the clock does not run backwards.  Validated with the server's
    key at or after its expiry, and so 5 minutes and a second after it was
    issued, the token is rejected as expired, in its parsed form and, where
    the parser reads the compact form back, in its compact form. *)
Theorem login_token_claims (E : Env) (w : World) (m : gmap string json)
    (e p : string) (u : User) :
  dict_get m "email" = JStr e → dict_get m "password" = JStr p →
  e ≠ "" → p ≠ "" →
  unique_emails w → u ∈ users w → email u = e →
  check_password_hash E (password_hash u) p = true →
  let t := issued E u w in
  let t_exp := utcnow_at E (S (ticks w)) in
  let t_iat := utcnow_at E (S (S (ticks w))) in
  let exp := numeric_date t_exp + 300 in
  let iat := numeric_date t_iat in
  (login E (JObj m) w).1 =
    Ok (make_response (Json (JObj {["token" := JStr (jwt_compact E t)]})) 201) ∧
  jwt_payload t !! "sub" = Some (JNum (id u)) ∧
  jwt_header t !! "user_id" = Some (JNum (id u)) ∧
  jwt_payload t !! "iat" = Some (JNum iat) ∧
  jwt_payload t !! "exp" = Some (JNum exp) ∧
  (numeric_date t_exp = numeric_date t_iat → exp = iat + 300) ∧
  ((t_exp ≤ t_iat)%Z → (exp ≤ iat + 300)%Z) ∧
  (∀ now, (exp * 1000000 ≤ now)%Z →
     jwt_verify E t (SECRET_KEY E) now = Raise ExpiredSignatureError) ∧
  ((t_exp ≤ t_iat)%Z →
     jwt_verify E t (SECRET_KEY E) ((iat + 300 + 1) * 1000000)
     = Raise ExpiredSignatureError) ∧
  (∀ now, jwt_parse E (jwt_compact E t) = Some t → (exp * 1000000 ≤ now)%Z →
     jwt_decode E (jwt_compact E t) (SECRET_KEY E) now = Raise ExpiredSignatureError).
Proof.
  intros He Hp Hne Hnp Huniq Hin Heq Hok t t_exp t_iat exp iat.
  assert (jwt_payload t !! "exp" = Some (JNum exp)) as Hexp.
  { subst t exp t_exp. unfold issued, jwt_sign, login_payload. cbn [jwt_payload].
    rewrite numeric_date_plus_5min. reflexivity. }
  assert (∀ now, (exp * 1000000 ≤ now)%Z →
            jwt_verify E t (SECRET_KEY E) now = Raise ExpiredSignatureError) as Hrej.
  { intros now Hnow. by apply (jwt_verify_expired E t (SECRET_KEY E) exp now). }
  repeat split.
  - rewrite (login_credentials E m e p w He Hp Hne Hnp).
    rewrite (select_users_unique e w u Huniq Hin Heq), Hok. reflexivity.
  - exact Hexp.
  - intros H. subst exp iat. lia.
  - intros H. subst exp iat. apply numeric_date_mono in H. lia.
  - exact Hrej.
  - intros H. apply Hrej. apply numeric_date_mono in H. subst exp iat. lia.
  - intros now Hparse Hnow. unfold jwt_decode. rewrite Hparse. by apply Hrej.
Qed.

(** The expiry of the token of the test configuration. *)
Lemma login_token_claims_witness :
  jwt_payload (issued Fixture.env Fixture.user1 Fixture.world) !! "exp"
  = Some (JNum 1700000300).
Proof.
  destruct (login_token_claims Fixture.env Fixture.world
              {[ "email" := JStr "ann@example.com"; "password" := JStr "s3cret" ]}
              "ann@example.com" "s3cret" Fixture.user1)
    as (_ & _ & _ & _ & H & _).
  - reflexivity.
  - reflexivity.
  - discriminate.
  - discriminate.
  - unfold unique_emails. apply (bool_decide_unpack _). vm_compute. exact I.
  - apply list_elem_of_here.
  - reflexivity.
  - reflexivity.
  - exact H.
Defined.

(** C2 as stated fails: [login] reads the clock once for the expiry and
    once more for issued-at.  On the test configuration the first reading is
    the last microsecond of a second and the next one opens the following
    second, and the expiry of the token that the 201 response carries is
    issued-at plus 299 seconds. *)
Lemma login_token_exp_is_not_iat_plus_5min :
  let t := issued Fixture.env Fixture.user1 Fixture.world in
  (login Fixture.env (Fixture.credentials "ann@example.com" "s3cret")
     Fixture.world).1 =
    Ok (make_response
          (Json (JObj {["token" := JStr (jwt_compact Fixture.env t)]})) 201) ∧
  jwt_payload t !! "exp" = Some (JNum 1700000300) ∧
  jwt_payload t !! "iat" = Some (JNum 1700000001) ∧
  1700000300 ≠ 1700000001 + 5 * 60.
Proof.
  split; [|split; [|split]].
  - vm_compute. reflexivity.
  - vm_compute. reflexivity.
  - vm_compute. reflexivity.
  - discriminate.
Qed.

(** *** C3: the guard of the protected route *)

Lemma token_required_valid (E : Env) (f : M Response) (token : string)
    (claims : gmap string json) (w : World) :
  jwt_decode E token (SECRET_KEY E) (utcnow_at E (ticks w)) = Ok claims →
  token_required E f (Some token) w = f (guarded w).
Proof. intros H. unfold token_required, utcnow. run. by rewrite H. Qed.

Lemma token_required_invalid (E : Env) (f : M Response) (token : string)
    (e : exn) (w : World) :
  jwt_decode E token (SECRET_KEY E) (utcnow_at E (ticks w)) = Raise e →
  token_required E f (Some token) w =
    (Ok (make_response (message "Invalid or expired token") 401), guarded w).
Proof. intros H. unfold token_required, utcnow. run. by rewrite H. Qed.

(** C3.  A PATCH of a region without an [Authorization] header, or with a
    token that does not decode under the server's key at the time of the
    request (unreadable, wrongly signed or expired), is answered 401, and the
    region table is what it was: the record of that code has not changed. *)
Theorem patch_region_unauthenticated (E : Env) (w : World) (noc_code : string)
    (authorization : option string) (region_json : json) :
  (authorization = None ∨
   ∃ token e, authorization = Some token ∧
     jwt_decode E token (SECRET_KEY E) (utcnow_at E (ticks w)) = Raise e) →
  let out := patch_region E noc_code authorization region_json w in
  status (respond out.1) = 401 ∧
  regions out.2 !! noc_code = regions w !! noc_code ∧
  regions out.2 = regions w.
Proof.
  intros [->|(token & e & -> & Hbad)] out; subst out; unfold patch_region.
  - repeat split.
  - rewrite (token_required_invalid E _ token e w Hbad). repeat split.
Qed.

(** The request of [test_user_not_logged_in_cannot_edit_region]. *)
Lemma patch_region_unauthenticated_witness :
  status (respond (patch_region Fixture.env "NEW" None
                     (JObj {["notes" := JStr "An updated note"]})
                     Fixture.world).1) = 401.
Proof.
  apply (patch_region_unauthenticated Fixture.env Fixture.world "NEW" None).
  left. reflexivity.
Defined.

(** *** C8: a deleted region is not found *)

(** C8.  When DELETE /regions/<code> answers with its success message, a GET
    of the same code that follows is answered 404. *)
Theorem delete_region_then_get_is_404 (noc_code : string) (w : World) :
  let out := delete_region noc_code w in
  respond out.1 = make_response (message ("Region " ++ noc_code ++ " deleted.")) 200 →
  respond (get_region noc_code out.2).1 = mkResponse 404 (Text "Region not found").
Proof.
  intros out. subst out. unfold delete_region, select_regions_by_NOC. run.
  destruct (regions w !! noc_code) as [a|] eqn:Hrow.
  - intros _. unfold scalar_one. run. cbn [fst snd].
    unfold get_region, select_regions_by_NOC. run.
    unfold set_regions at 1. cbn [regions].
    rewrite lookup_delete_eq. reflexivity.
  - unfold scalar_one. run. cbn [is_SQLAlchemyError].
    unfold logger. run. cbn [fst respond].
    intros H. apply (f_equal status) in H. discriminate H.
Qed.

(** Deleting the region [NEW] of the test configuration. *)
Lemma delete_region_then_get_is_404_witness :
  status (respond (get_region "NEW" (delete_region "NEW" Fixture.world).2).1) = 404.
Proof.
  rewrite (delete_region_then_get_is_404 "NEW" Fixture.world).
  - reflexivity.
  - vm_compute. reflexivity.
Defined.

(** *** The paths of [update_region] *)

(** Whatever the session raises is an [SQLAlchemyError]. *)
Lemma Region_flush_raises (o : Obj string) tbl (e : exn) :
  Region_flush o tbl = Raise e → is_SQLAlchemyError e = true.
Proof.
  unfold Region_flush, flush. intros Hr.
  repeat (match type of Hr with
          | context [match ?x with _ => _ end] => destruct x
          | context [if ?x then _ else _] => destruct x
          end); by simplify_eq.
Qed.

(** The merge step, for a body that is an object: validation, then the
    commit of the instance that the schema makes. *)
Lemma update_region_merge_object (E : Env) (noc_code : string)
    (target : option (Obj string)) (d : gmap string json) (w : World) :
  update_region_merge E noc_code target (JObj d) w =
    if schema_valid (region_field_ok E) d then
      match Region_flush (Region_make_instance target d (regions w)) (regions w) with
      | Ok tbl => (Ok (region_updated noc_code), set_regions tbl w)
      | Raise _ => (Ok update_failed, w)
      end
    else (Ok validation_failed, w).
Proof.
  unfold update_region_merge, schema_validate. run.
  destruct (schema_valid (region_field_ok E) d); cbn [andb orb]; run; [|reflexivity].
  unfold commit.
  destruct (Region_flush _ _) as [tbl|e] eqn:Hf; run; [reflexivity|].
  by rewrite (Region_flush_raises _ _ _ Hf).
Qed.

Lemma update_region_merge_not_object (E : Env) (noc_code : string)
    (target : option (Obj string)) (body : json) (w : World) :
  (∀ d, body ≠ JObj d) →
  update_region_merge E noc_code target body w = (Ok validation_failed, w).
Proof.
  intros Hno. unfold update_region_merge, schema_validate.
  destruct body; run; try reflexivity. by destruct (Hno m).
Qed.

(** The merge step answers 200 or 500, whatever its target. *)
Lemma update_region_merge_status (E : Env) (noc_code : string)
    (target : option (Obj string)) (body : json) (w : World) :
  let s := status (respond (update_region_merge E noc_code target body w).1) in
  s = 200 ∨ s = 500.
Proof.
  destruct body;
    try (rewrite update_region_merge_not_object by discriminate; by right).
  rewrite update_region_merge_object.
  destruct (schema_valid _ _); [|by right].
  destruct (Region_flush _ _); [by left | by right].
Qed.

(** The lookup of [update_region] never takes its [except] branch: the
    handler goes on to the merge with the row it found, or with none. *)
Lemma update_region_lookup (E : Env) (noc_code : string) (body : json) (w : World) :
  update_region E noc_code body w =
    update_region_merge E noc_code
      (Region_loaded <$> ((λ a, (noc_code, a)) <$> regions w !! noc_code)) body w.
Proof.
  unfold update_region, select_regions_by_NOC. run.
  destruct (regions w !! noc_code); reflexivity.
Qed.

(** *** C6: an update of a region that does not exist *)

(** C6.  An authenticated PATCH for a code that no region has is not
    answered with the not-found response: the handler runs the merge step
    with no target, and the answer is that of the merge step, 200 or 500. *)
Theorem update_region_missing_row_proceeds (E : Env) (w : World)
    (noc_code token : string) (claims : gmap string json) (region_json : json) :
  jwt_decode E token (SECRET_KEY E) (utcnow_at E (ticks w)) = Ok claims →
  regions w !! noc_code = None →
  let out := patch_region E noc_code (Some token) region_json w in
  out = update_region_merge E noc_code None region_json (guarded w) ∧
  status (respond out.1) ≠ 404 ∧
  respond out.1 ≠
    make_response (message ("Region " ++ noc_code ++ " not found")) 404.
Proof.
  intros Hvalid Hnone out. subst out. unfold patch_region.
  rewrite (token_required_valid E _ token claims w Hvalid).
  rewrite update_region_lookup. cbn [guarded regions]. rewrite Hnone.
  cbn [fmap option_fmap option_map].
  split; [reflexivity|].
  pose proof (update_region_merge_status E noc_code None region_json (guarded w)) as Hs.
  cbv zeta in Hs. cbn [guarded] in Hs.
  split.
  - intros H404. rewrite H404 in Hs. destruct Hs; discriminate.
  - intros Heq. apply (f_equal status) in Heq. cbn [status make_response] in Heq.
    rewrite Heq in Hs. destruct Hs; discriminate.
Qed.

(** The request of [test_user_logged_in_user_can_edit_region], for a code
    that no region has. *)
Lemma update_region_missing_row_proceeds_witness :
  status (respond (patch_region Fixture.env "XXX"
                     (Some (jwt_compact Fixture.env Fixture.token))
                     (JObj {["notes" := JStr "An updated note"]})
                     Fixture.world).1) ≠ 404.
Proof.
  apply (update_region_missing_row_proceeds Fixture.env Fixture.world "XXX"
           (jwt_compact Fixture.env Fixture.token)
           (jwt_payload Fixture.token)).
  - vm_compute. reflexivity.
  - vm_compute. reflexivity.
Defined.

(** *** C7 and C4: what an update changes, and what a GET then shows *)

(** The commit of an instance loaded from the row [code]. *)
Lemma Region_flush_persistent (code : string) (flds : gmap string json)
    (tbl tbl' : gmap string (gmap string json)) :
  Region_flush (mkObj (Some code) flds) tbl = Ok tbl' →
  ∃ code', flds !! "NOC" = Some (JStr code') ∧
    tbl' !! code' = Some (delete "NOC" flds) ∧
    (code' ≠ code → tbl' !! code = None) ∧
    (∀ k, k ≠ code → k ≠ code' → tbl' !! k = tbl !! k).
Proof.
  unfold Region_flush, flush. cbn [origin fields].
  destruct (flds !! "NOC") as [v|] eqn:Hk; cbn; [|discriminate].
  destruct v as [| | |code'| |]; cbn; try discriminate.
  intros Hf. exists code'. split; [reflexivity|].
  destruct (decide (code' = code)) as [->|Hne].
  - rewrite bool_decide_eq_true_2 in Hf by done. simplify_eq.
    split; [apply lookup_insert_eq|]. split; [done|].
    intros k Hk1 _. by rewrite lookup_insert_ne.
  - rewrite bool_decide_eq_false_2 in Hf by done.
    destruct (bool_decide (is_Some (tbl !! code'))); simplify_eq.
    split; [apply lookup_insert_eq|]. split.
    + intros _. rewrite lookup_insert_ne by done. apply lookup_delete_eq.
    + intros k Hk1 Hk2. rewrite lookup_insert_ne by done.
      by rewrite lookup_delete_ne.
Qed.

(** What [region_schema.dump] shows of a stored row is the attributes that
    were committed. *)
Lemma Region_loaded_stored (code : string) (flds : gmap string json) :
  flds !! "NOC" = Some (JStr code) →
  fields (Region_loaded (code, delete "NOC" flds)) = flds.
Proof.
  intros Hk. unfold Region_loaded, loaded. cbn [fields fst snd].
  rewrite insert_delete_eq. by apply insert_id.
Qed.

Lemma lookup_merge (d r : gmap string json) (f : string) :
  (d ∪ r) !! f = match d !! f with Some v => Some v | None => r !! f end.
Proof. rewrite lookup_union. destruct (d !! f), (r !! f); reflexivity. Qed.

(** A successful update of an existing region, step by step. *)
Lemma update_region_existing (E : Env) (noc_code : string)
    (a d : gmap string json) (w : World) :
  regions w !! noc_code = Some a →
  schema_valid (region_field_ok E) d = true →
  let merged := d ∪ fields (Region_loaded (noc_code, a)) in
  update_region E noc_code (JObj d) w =
    match Region_flush (mkObj (Some noc_code) merged) (regions w) with
    | Ok tbl => (Ok (region_updated noc_code), set_regions tbl w)
    | Raise _ => (Ok update_failed, w)
    end.
Proof.
  intros Hrow Hvalid merged. rewrite update_region_lookup, Hrow.
  rewrite update_region_merge_object, Hvalid. reflexivity.
Qed.

(** C7.  After a successful authenticated PATCH of an existing region with
    a body that the schema accepts, the stored record of that region holds,
    for every field that the body names, the value of the body, and for
    every other field the value it had before; the record is stored under
    its NOC code, so that a body that names another code moves it; every
    other region is as it was. *)
Theorem update_region_changes_named_fields_only (E : Env) (w : World)
    (noc_code token : string) (claims a d : gmap string json) :
  jwt_decode E token (SECRET_KEY E) (utcnow_at E (ticks w)) = Ok claims →
  regions w !! noc_code = Some a →
  schema_valid (region_field_ok E) d = true →
  let out := patch_region E noc_code (Some token) (JObj d) w in
  status (respond out.1) = 200 →
  ∃ code' a',
    regions out.2 !! code' = Some a' ∧
    (∀ f, fields (Region_loaded (code', a')) !! f =
          match d !! f with
          | Some v => Some v
          | None => fields (Region_loaded (noc_code, a)) !! f
          end) ∧
    (code' ≠ noc_code → regions out.2 !! noc_code = None) ∧
    (∀ k, k ≠ noc_code → k ≠ code' → regions out.2 !! k = regions w !! k).
Proof.
  intros Hvalid Hrow Hschema out. subst out. unfold patch_region.
  rewrite (token_required_valid E _ token claims w Hvalid).
  rewrite (update_region_existing E noc_code a d (guarded w) Hrow Hschema).
  cbn [guarded regions].
  destruct (Region_flush _ _) as [tbl|e] eqn:Hf; [|discriminate].
  intros _. cbn [snd set_regions regions].
  apply Region_flush_persistent in Hf as (code' & Hk & Hnew & Hold & Hframe).
  exists code', (delete "NOC" (d ∪ fields (Region_loaded (noc_code, a)))).
  split; [exact Hnew|]. split; [|split; assumption].
  intros f. rewrite (Region_loaded_stored _ _ Hk). apply lookup_merge.
Qed.

(** The edit of [test_user_logged_in_user_can_edit_region]: the note of the
    region [NEW] changes and its name stays. *)
Lemma update_region_changes_named_fields_only_witness :
  ∃ code' a',
    regions (patch_region Fixture.env "NEW"
               (Some (jwt_compact Fixture.env Fixture.token))
               (JObj {["notes" := JStr "An updated note"]})
               Fixture.world).2 !! code' = Some a' ∧
    fields (Region_loaded (code', a')) !! "notes" = Some (JStr "An updated note") ∧
    fields (Region_loaded (code', a')) !! "region" = Some (JStr "New Region").
Proof.
  destruct (update_region_changes_named_fields_only Fixture.env Fixture.world
              "NEW" (jwt_compact Fixture.env Fixture.token)
              (jwt_payload Fixture.token)
              {[ "region" := JStr "New Region"; "notes" := JStr "A note" ]}
              {[ "notes" := JStr "An updated note" ]})
    as (code' & a' & Hrow & Hfields & _).
  - vm_compute. reflexivity.
  - vm_compute. reflexivity.
  - vm_compute. reflexivity.
  - vm_compute. reflexivity.
  - exists code', a'. split; [exact Hrow|]. split.
    + rewrite (Hfields "notes"). reflexivity.
    + rewrite (Hfields "region"). reflexivity.
Defined.

Lemma Region_flush_in_place (code : string) (flds : gmap string json)
    (tbl : gmap string (gmap string json)) :
  flds !! "NOC" = Some (JStr code) →
  Region_flush (mkObj (Some code) flds) tbl = Ok (<[code := delete "NOC" flds]> tbl).
Proof.
  intros Hk. unfold Region_flush, flush. cbn [origin fields]. rewrite Hk. cbn.
  by rewrite bool_decide_eq_true_2.
Qed.

(** C4, as amended.  An authenticated PATCH of an existing region with a
    body that the schema accepts and that leaves the key alone (it has no
    NOC, or the NOC of the path) is answered 200, and the GET of the same
    code that follows shows every field of the body with the value of the
    body. *)
Theorem update_region_then_get (E : Env) (w : World)
    (noc_code token : string) (claims a d : gmap string json) :
  jwt_decode E token (SECRET_KEY E) (utcnow_at E (ticks w)) = Ok claims →
  regions w !! noc_code = Some a →
  schema_valid (region_field_ok E) d = true →
  (d !! "NOC" = None ∨ d !! "NOC" = Some (JStr noc_code)) →
  let out := patch_region E noc_code (Some token) (JObj d) w in
  respond out.1 = region_updated noc_code ∧
  ∃ shown,
    respond (get_region noc_code out.2).1 = make_response (Json (JObj shown)) 200 ∧
    ∀ f v, d !! f = Some v → shown !! f = Some v.
Proof.
  intros Hvalid Hrow Hschema Hkey out. subst out. unfold patch_region.
  rewrite (token_required_valid E _ token claims w Hvalid).
  rewrite (update_region_existing E noc_code a d (guarded w) Hrow Hschema).
  cbn [guarded regions].
  set (merged := d ∪ fields (Region_loaded (noc_code, a))).
  assert (merged !! "NOC" = Some (JStr noc_code)) as Hk.
  { subst merged. rewrite lookup_merge. destruct Hkey as [->| ->]; [|reflexivity].
    unfold Region_loaded, loaded. cbn [fields fst snd]. apply lookup_insert_eq. }
  rewrite (Region_flush_in_place _ _ _ Hk). cbn [fst snd respond].
  split; [reflexivity|]. exists merged. split.
  - unfold get_region, select_regions_by_NOC. run.
    unfold set_regions at 1. cbn [regions]. rewrite lookup_insert_eq.
    unfold scalar_one. run. cbn [fst respond]. unfold dump.
    by rewrite (Region_loaded_stored _ _ Hk).
  - intros f v Hf. subst merged. by rewrite lookup_merge, Hf.
Qed.

(** The edit of [test_user_logged_in_user_can_edit_region], then a GET. *)
Lemma update_region_then_get_witness :
  respond (patch_region Fixture.env "NEW"
             (Some (jwt_compact Fixture.env Fixture.token))
             (JObj {["notes" := JStr "An updated note"]})
             Fixture.world).1 = region_updated "NEW".
Proof.
  apply (update_region_then_get Fixture.env Fixture.world "NEW"
           (jwt_compact Fixture.env Fixture.token) (jwt_payload Fixture.token)
           {[ "region" := JStr "New Region"; "notes" := JStr "A note" ]}
           {[ "notes" := JStr "An updated note" ]}).
  - vm_compute. reflexivity.
  - vm_compute. reflexivity.
  - vm_compute. reflexivity.
  - left. vm_compute. reflexivity.
Defined.

(** C4 as stated fails: the NOC code is a field of the schema like the
    others, and a body that the schema accepts can name a new one.  With a
    valid token, PATCH /regions/NEW with the body [{"NOC": "ZZZ"}] is
    answered 200, and the GET of /regions/NEW that follows is answered 404:
    the field of the body is not shown there. *)
Lemma update_region_new_code_then_get_is_404 :
  let token := jwt_compact Fixture.env Fixture.token in
  let d : gmap string json := {[ "NOC" := JStr "ZZZ" ]} in
  let out := patch_region Fixture.env "NEW" (Some token) (JObj d) Fixture.world in
  jwt_decode Fixture.env token (SECRET_KEY Fixture.env)
    (utcnow_at Fixture.env (ticks Fixture.world)) = Ok (jwt_payload Fixture.token) ∧
  is_Some (regions Fixture.world !! "NEW") ∧
  schema_valid (region_field_ok Fixture.env) d = true ∧
  respond out.1 = region_updated "NEW" ∧
  respond (get_region "NEW" out.2).1 = mkResponse 404 (Text "Region not found").
Proof.
  repeat split; try (vm_compute; reflexivity).
  vm_compute. eauto.
Qed.

(** *** C5: registration *)

(** The paths of [register] on a body that is an object. *)
Lemma register_object (E : Env) (m : gmap string json) (w : World) :
  register E (JObj m) w =
    match select_users_by_email (dict_get m "email") w with
    | [] =>
        match dict_get m "password" with
        | JStr p =>
            match insert_user (dict_get m "email") (generate_password_hash E p)
                    (users w) with
            | Ok (u, _) => (Ok registered, with_user E u w)
            | Raise _ => (Ok generic_failure, w)
            end
        | _ => (Ok generic_failure, w)
        end
    | [_] => (Ok already_exists, w)
    | _ => (Raise MultipleResultsFound, w)
    end.
Proof.
  unfold register, py_get. run.
  destruct (select_users_by_email (dict_get m "email") w) as [|u [|u' us]];
    unfold scalar_one_or_none; run; try reflexivity.
  unfold register_create, py_get, set_password. run.
  destruct (dict_get m "password") as [| | |p| |]; run; try reflexivity.
  unfold commit, insert_user.
  destruct (dict_get m "email") as [| | |a| |]; run; try reflexivity.
  destruct (bool_decide (a ∈ email <$> users w)); run; reflexivity.
Qed.

Lemma register_not_object (E : Env) (post_data : json) (w : World) :
  (∀ m, post_data ≠ JObj m) → register E post_data w = (Raise AttributeError, w).
Proof.
  intros Hno. unfold register, py_get.
  destruct post_data; run; try reflexivity. by destruct (Hno m).
Qed.


(** A generated id is above every id there is. *)
Lemma next_id_above (ids : list Z) (x : Z) : x ∈ ids → (x < next_id ids)%Z.
Proof.
  unfold next_id. induction ids as [|y ids IH]; [by intros ?%elem_of_nil|].
  intros [->|Hin]%elem_of_cons; cbn [foldr]; [lia|]. apply IH in Hin. lia.
Qed.

Lemma insert_user_fresh (a h : string) (us : list User) :
  (∀ u, u ∈ us → email u ≠ a) →
  insert_user (JStr a) h us =
    Ok (mkUser (next_id (id <$> us)) a h, us ++ [mkUser (next_id (id <$> us)) a h])%list.
Proof.
  intros Hfresh. unfold insert_user. rewrite bool_decide_eq_false_2; [reflexivity|].
  intros (u & Hu & Hin)%list_elem_of_fmap_1. by apply (Hfresh u).
Qed.



(** Registration keeps the invariant of the credential store. *)
Lemma register_keeps_unique_emails (E : Env) (post_data : json) (w : World) :
  unique_emails w → unique_emails (register E post_data w).2.
Proof.
  intros Huniq. destruct post_data;
    try (rewrite register_not_object by discriminate; exact Huniq).
  rewrite register_object.
  destruct (select_users_by_email _ w) as [|u [|u' us]]; try exact Huniq.
  destruct (dict_get m "password") as [| | |p| |]; try exact Huniq.
  unfold insert_user.
  destruct (dict_get m "email") as [| | |a| |]; try exact Huniq.
  destruct (decide (a ∈ email <$> users w)) as [Hin|Hout].
  - rewrite bool_decide_eq_true_2 by done. exact Huniq.
  - rewrite bool_decide_eq_false_2 by done. unfold unique_emails, with_user.
    cbn [snd users email]. rewrite fmap_app. apply NoDup_app.
    split; [exact Huniq|]. split.
    + intros x Hx Hx'. apply list_elem_of_singleton in Hx'. by subst x.
    + apply NoDup_singleton.
Qed.

(** *** C9: what [login] tells about an email *)

Lemma dict_get_insert_eq (m : gmap string json) (k : string) (v : json) :
  dict_get (<[k := v]> m) k = v.
Proof. unfold dict_get. by rewrite lookup_insert_eq. Qed.

Lemma dict_get_insert_ne (m : gmap string json) (k k' : string) (v : json) :
  k ≠ k' → dict_get (<[k := v]> m) k' = dict_get m k'.
Proof. intros Hne. unfold dict_get. by rewrite lookup_insert_ne. Qed.

(** C9, as amended.  Take two login requests that carry the same non-empty
    password and differ in the email only, both emails non-empty, one of a
    registered user and one of nobody.  The second is answered 401 with the
    message of the lookup, whatever the password and whatever the password
    check would say; the first is answered with another status, so the two
    responses differ.  The message of the lookup is neither that of the
    first check nor that of the password check. *)
Theorem login_reveals_registration (E : Env) (w : World)
    (m : gmap string json) (e1 e2 p : string) :
  m !! "password" = Some (JStr p) → p ≠ "" → e1 ≠ "" → e2 ≠ "" →
  (∃ u, u ∈ users w ∧ email u = e1) →
  (∀ u, u ∈ users w → email u ≠ e2) →
  let r1 := respond (login E (JObj (<["email" := JStr e1]> m)) w).1 in
  let r2 := respond (login E (JObj (<["email" := JStr e2]> m)) w).1 in
  r2 = no_account ∧
  status r1 ≠ status r2 ∧
  r1 ≠ r2 ∧
  body no_account ≠ body missing_credentials ∧
  body no_account ≠ body incorrect_password.
Proof.
  intros Hp Hnp Hne1 Hne2 (u & Hin & Heq) Hnone r1 r2.
  assert (∀ e, dict_get (<["email" := JStr e]> m) "password" = JStr p) as Hpw.
  { intros e. rewrite dict_get_insert_ne by done. unfold dict_get. by rewrite Hp. }
  assert (r2 = no_account) as H2.
  { subst r2.
    rewrite (login_credentials E _ e2 p w (dict_get_insert_eq _ _ _) (Hpw e2) Hne2 Hnp).
    by rewrite select_users_none. }
  assert (status r1 ≠ 401) as H1.
  { subst r1.
    rewrite (login_credentials E _ e1 p w (dict_get_insert_eq _ _ _) (Hpw e1) Hne1 Hnp).
    destruct (select_users_by_email (JStr e1) w) as [|u1 [|u2 us]] eqn:Hs.
    - exfalso. apply (filter_nil_not_elem_of _ _ u Hs); done.
    - destruct (check_password_hash E (password_hash u1) p); discriminate.
    - discriminate. }
  split; [exact H2|]. rewrite H2. split; [exact H1|]. split.
  - intros Heq12. apply H1. by rewrite Heq12.
  - split; intros Hb; apply (f_equal (λ b, match b with
                                           | Json (JObj o) => o !! "message"
                                           | _ => None
                                           end)) in Hb; vm_compute in Hb;
      discriminate Hb.
Qed.

(** Two logins on the test configuration, with the wrong password. *)
Lemma login_reveals_registration_witness :
  status (respond (login Fixture.env (Fixture.credentials "ann@example.com" "guess")
                     Fixture.world).1)
  ≠ status (respond (login Fixture.env (Fixture.credentials "bob@example.com" "guess")
                       Fixture.world).1).
Proof.
  apply (login_reveals_registration Fixture.env Fixture.world
           {[ "password" := JStr "guess" ]} "ann@example.com" "bob@example.com" "guess").
  - reflexivity.
  - discriminate.
  - discriminate.
  - discriminate.
  - exists Fixture.user1. split; [apply list_elem_of_here | reflexivity].
  - intros u Hin. apply list_elem_of_singleton in Hin as ->. discriminate.
Defined.

(** C9 as stated fails: two requests that differ in the email only, one of
    a registered user and one of nobody, and that carry no password, get the
    same response. *)
Lemma login_without_password_reveals_nothing :
  let known : json := JObj {[ "email" := JStr "ann@example.com" ]} in
  let unknown : json := JObj {[ "email" := JStr "bob@example.com" ]} in
  (∃ u, u ∈ users Fixture.world ∧ email u = "ann@example.com") ∧
  (∀ u, u ∈ users Fixture.world → email u ≠ "bob@example.com") ∧
  respond (login Fixture.env known Fixture.world).1
  = respond (login Fixture.env unknown Fixture.world).1.
Proof.
  split; [|split].
  - exists Fixture.user1. split; [apply list_elem_of_here | reflexivity].
  - intros u Hin. apply list_elem_of_singleton in Hin as ->. discriminate.
  - vm_compute. reflexivity.
Qed.

(** *** C10: the lookup of [event_update] *)

Lemma NoDup_only_element {A} (l : list A) (y : A) :
  NoDup l → (∀ x, x ∈ l ↔ x = y) → l = [y].
Proof.
  intros Hnd Hall. destruct l as [|x l].
  - assert (y ∈ @nil A) as Hy by (by apply Hall). by apply elem_of_nil in Hy.
  - assert (x = y) as -> by (apply Hall; left).
    f_equal. destruct l as [|z l]; [reflexivity|].
    assert (z = y) as -> by (apply Hall; right; left).
    apply NoDup_cons in Hnd as [Hnotin _]. destruct Hnotin. left.
Qed.

(** Selecting by the attribute [id], when the class maps it, finds the row
    with that key. *)
Lemma select_events_by_id (E : Env) (event_id : Z) (a : gmap string json) (w : World) :
  "id" ∈ Event_attrs E → events w !! event_id = Some a →
  select_events_by E "id" event_id w = (Ok [(event_id, a)], w).
Proof.
  intros Hattr Hrow. unfold select_events_by. rewrite bool_decide_eq_true_2 by done.
  run. f_equal. f_equal. apply NoDup_only_element.
  - apply NoDup_filter, NoDup_map_to_list.
  - intros [k b]. rewrite list_elem_of_filter, elem_of_map_to_list.
    unfold has_int, Event_loaded, loaded. cbn [fields fst snd].
    rewrite lookup_insert_eq, Z.eqb_eq. split.
    + intros [-> Hb]. rewrite Hrow in Hb. by simplify_eq.
    + intros [= -> ->]. by split.
Qed.

(** Selecting by a name that the class does not map raises. *)
Lemma select_events_by_unmapped (E : Env) (attr : string) (v : Z) (w : World) :
  attr ∉ Event_attrs E →
  select_events_by E attr v w = (Raise InvalidRequestError, w).
Proof.
  intros Hattr. unfold select_events_by. by rewrite bool_decide_eq_false_2.
Qed.

(** C10.  [event_update] selects by the attribute name [event_id], while
    [get_event] and [delete_event] select by [id].  When [Event] maps [id]
    and maps no [event_id], the lookup of [event_update] raises
    [InvalidRequestError] on every input, before the body is read and with
    the world untouched; nothing catches it, so the handler never returns
    and the request is answered 500, also for an event that [get_event] and
    [delete_event] find and answer with 200. *)
Theorem event_update_always_raises (E : Env) :
  "id" ∈ Event_attrs E → "event_id" ∉ Event_attrs E →
  (∀ event_id event_json w,
     event_update E event_id event_json w = (Raise InvalidRequestError, w) ∧
     (∀ resp, (event_update E event_id event_json w).1 ≠ Ok resp) ∧
     status (respond (event_update E event_id event_json w).1) = 500) ∧
  (∀ event_id a w, events w !! event_id = Some a →
     status (respond (get_event E event_id w).1) = 200 ∧
     status (respond (delete_event E event_id w).1) = 200).
Proof.
  intros Hid Hno. split.
  - intros event_id event_json w.
    assert (event_update E event_id event_json w = (Raise InvalidRequestError, w)) as ->.
    { unfold event_update. unfold mbind at 1, M_bind at 1.
      by rewrite select_events_by_unmapped. }
    by repeat split.
  - intros event_id a w Hrow. split.
    + unfold get_event. unfold mbind at 1, M_bind at 1.
      by rewrite (select_events_by_id E event_id a w Hid Hrow).
    + unfold delete_event. unfold mbind at 1, M_bind at 1.
      by rewrite (select_events_by_id E event_id a w Hid Hrow).
Qed.

(** The event of the test configuration. *)
Lemma event_update_always_raises_witness :
  event_update Fixture.env 1 (JObj {["host" := JStr "Milan"]}) Fixture.world
  = (Raise InvalidRequestError, Fixture.world).
Proof.
  destruct (event_update_always_raises Fixture.env) as [H _].
  - apply (bool_decide_unpack _). vm_compute. exact I.
  - apply (bool_decide_unpack _). vm_compute. exact I.
  - apply H.
Defined.

(** ** Further properties of the handlers *)

(** *** Reading and deleting regions *)

Lemma get_region_found (code : string) (a : gmap string json) (w : World) :
  regions w !! code = Some a →
  get_region code w =
    (Ok (make_response (Json (JObj (<["NOC" := JStr code]> a))) 200), w).
Proof.
  intros Hrow. unfold get_region, select_regions_by_NOC. run. by rewrite Hrow.
Qed.

Lemma get_region_missing (code : string) (w : World) :
  regions w !! code = None →
  get_region code w =
    (Raise (HTTPException 404 "Region not found"),
     mkWorld (regions w) (events w) (users w) (ticks w)
       (log w ++ [mkLog ERROR "Region code was not found" code None])).
Proof.
  intros Hrow. unfold get_region, select_regions_by_NOC. run. by rewrite Hrow.
Qed.

(** X1.  GET /regions answers 200 with an array that has one element per
    stored region, and its elements are exactly the bodies that GET
    /regions/<code> gives for the stored codes; the world is unchanged.  In
    particular the array is empty when there is no region. *)
Theorem get_regions_lists_every_region (w : World) :
  ∃ items,
    get_regions w = (Ok (make_response (Json (JArr items)) 200), w) ∧
    length items = size (regions w) ∧
    ∀ j, j ∈ items ↔
         ∃ code, is_Some (regions w !! code) ∧
                 respond (get_region code w).1 = make_response (Json j) 200.
Proof.
  exists (dump <$> (Region_loaded <$> map_to_list (regions w))).
  split; [reflexivity|]. split.
  - by rewrite !length_fmap, length_map_to_list.
  - intros j. rewrite <- list_fmap_compose. rewrite list_elem_of_fmap. split.
    + intros ([code a] & -> & Hin). apply elem_of_map_to_list in Hin.
      exists code. split; [eauto|]. by rewrite (get_region_found code a w Hin).
    + intros (code & [a Hrow] & Hget). exists (code, a).
      split; [|by apply elem_of_map_to_list].
      rewrite (get_region_found code a w Hrow) in Hget.
      cbn [fst respond] in Hget. by injection Hget as <-.
Qed.

(** X2.  DELETE /regions/<code> for a code that no region has is answered
    500, not 404, with the message "Region <code> not found"; the tables are
    as they were and one error goes to the log. *)
Theorem delete_region_missing_is_500 (noc_code : string) (w : World) :
  regions w !! noc_code = None →
  delete_region noc_code w =
    (Ok (make_response (message ("Region " ++ noc_code ++ " not found")) 500),
     mkWorld (regions w) (events w) (users w) (ticks w)
       (log w ++ [mkLog ERROR "A SQLAlchemy database error occurred" "" None])).
Proof.
  intros Hrow. unfold delete_region, select_regions_by_NOC. run. by rewrite Hrow.
Qed.

Lemma delete_region_missing_is_500_witness :
  status (respond (delete_region "XXX" Fixture.world).1) = 500.
Proof.
  rewrite (delete_region_missing_is_500 "XXX" Fixture.world); [reflexivity|].
  vm_compute. reflexivity.
Defined.

(** X3.  DELETE /regions/<code> for a stored code is answered 200 with
    "Region <code> deleted."; the row of that code is gone, every other
    region is as it was, and nothing else in the world changes. *)
Theorem delete_region_removes_one_row (noc_code : string)
    (a : gmap string json) (w : World) :
  regions w !! noc_code = Some a →
  let out := delete_region noc_code w in
  out.1 = Ok (make_response (message ("Region " ++ noc_code ++ " deleted.")) 200) ∧
  regions out.2 !! noc_code = None ∧
  (∀ k, k ≠ noc_code → regions out.2 !! k = regions w !! k) ∧
  events out.2 = events w ∧ users out.2 = users w ∧
  ticks out.2 = ticks w ∧ log out.2 = log w.
Proof.
  intros Hrow out. subst out. unfold delete_region, select_regions_by_NOC. run.
  rewrite Hrow. unfold scalar_one. run. cbn [fst snd set_regions regions].
  split; [reflexivity|]. split; [apply lookup_delete_eq|].
  split; [|by repeat split]. intros k Hk. by apply lookup_delete_ne.
Qed.

Lemma delete_region_removes_one_row_witness :
  regions (delete_region "NEW" Fixture.world).2 !! "GBR"
  = regions Fixture.world !! "GBR".
Proof.
  destruct (delete_region_removes_one_row "NEW"
              {[ "region" := JStr "New Region"; "notes" := JStr "A note" ]}
              Fixture.world) as (_ & _ & Hframe & _).
  - vm_compute. reflexivity.
  - apply Hframe. discriminate.
Defined.

(** *** Creating regions *)

Lemma Region_make_instance_new (d : gmap string json) (k : string)
    (tbl : gmap string (gmap string json)) :
  d !! "NOC" = Some (JStr k) → tbl !! k = None →
  Region_make_instance None d tbl = mkObj None d.
Proof.
  intros Hk Hfree. unfold Region_make_instance, make_instance, get_instance.
  rewrite Hk. cbn. by rewrite Hfree.
Qed.

Lemma Region_make_instance_found (d a : gmap string json) (k : string)
    (tbl : gmap string (gmap string json)) :
  d !! "NOC" = Some (JStr k) → tbl !! k = Some a →
  Region_make_instance None d tbl = mkObj (Some k) (d ∪ fields (Region_loaded (k, a))).
Proof.
  intros Hk Hrow. unfold Region_make_instance, make_instance, get_instance.
  rewrite Hk. cbn. by rewrite Hrow.
Qed.

Lemma Region_flush_insert (flds : gmap string json) (k : string)
    (tbl : gmap string (gmap string json)) :
  flds !! "NOC" = Some (JStr k) → tbl !! k = None →
  Region_flush (mkObj None flds) tbl = Ok (<[k := delete "NOC" flds]> tbl).
Proof.
  intros Hk Hfree. unfold Region_flush, flush. cbn [origin fields]. rewrite Hk. cbn.
  rewrite bool_decide_eq_false_2; [reflexivity|].
  rewrite Hfree. by intros [? ?].
Qed.

(** The paths of [add_region] on an object that passes the validation. *)
Lemma add_region_valid (E : Env) (d : gmap string json) (w : World) :
  schema_valid (region_field_ok E) d = true →
  has_fields (region_required E) d = true →
  let region := Region_make_instance None d (regions w) in
  add_region E (JObj d) w =
    match Region_flush region (regions w) with
    | Ok tbl =>
        (Ok (make_response
               (message ("Region added with NOC= " ++
                         default "None" (fields region !! "NOC" ≫= json_string)))
               200), set_regions tbl w)
    | Raise _ =>
        (Ok server_error,
         mkWorld (regions w) (events w) (users w) (ticks w)
           (log w ++ [mkLog ERROR "An error occurred saving the Region" "" None]))
    end.
Proof.
  intros Hvalid Hreq region. unfold add_region, schema_validate. run.
  rewrite Hvalid, Hreq. cbn [andb orb]. run. fold region.
  unfold commit. destruct (Region_flush region (regions w)) as [tbl|e] eqn:Hf; run.
  - reflexivity.
  - by rewrite (Region_flush_raises _ _ _ Hf).
Qed.

(** X4.  POST /regions with a body that the schema accepts in full and whose
    NOC code is not in the table is answered 200 with "Region added with
    NOC= <code>"; the GET of that code that follows is answered 200 with an
    object that has every field of the body with the value that was sent,
    and the regions that were there before are as they were. *)
Theorem add_region_then_get (E : Env) (d : gmap string json) (k : string)
    (w : World) :
  schema_valid (region_field_ok E) d = true →
  has_fields (region_required E) d = true →
  d !! "NOC" = Some (JStr k) →
  regions w !! k = None →
  let out := add_region E (JObj d) w in
  out.1 = Ok (make_response (message ("Region added with NOC= " ++ k)) 200) ∧
  (∃ shown,
     get_region k out.2 = (Ok (make_response (Json (JObj shown)) 200), out.2) ∧
     ∀ f v, d !! f = Some v → shown !! f = Some v) ∧
  (∀ k', k' ≠ k → regions out.2 !! k' = regions w !! k').
Proof.
  intros Hvalid Hreq Hk Hfree out. subst out.
  rewrite (add_region_valid E d w Hvalid Hreq).
  rewrite (Region_make_instance_new d k _ Hk Hfree).
  rewrite (Region_flush_insert d k _ Hk Hfree). cbn [fields fst snd].
  rewrite Hk. cbn. split; [reflexivity|]. split.
  - exists d. split; [|done]. rewrite (get_region_found k (delete "NOC" d)).
    + by rewrite insert_delete_eq, insert_id.
    + cbn [set_regions regions]. apply lookup_insert_eq.
  - intros k' Hne. cbn [set_regions regions]. by rewrite lookup_insert_ne.
Qed.

Lemma add_region_then_get_witness :
  (add_region Fixture.env (JObj {[ "NOC" := JStr "ITA"; "region" := JStr "Italy" ]})
     Fixture.world).1
  = Ok (make_response (message "Region added with NOC= ITA") 200).
Proof.
  apply (add_region_then_get Fixture.env
           {[ "NOC" := JStr "ITA"; "region" := JStr "Italy" ]} "ITA" Fixture.world).
  - vm_compute. reflexivity.
  - vm_compute. reflexivity.
  - vm_compute. reflexivity.
  - vm_compute. reflexivity.
Defined.

(** X5.  POST /regions with a body that fails the validation (it is not an
    object, a field of it does not validate, or a required field is not
    there) is answered 500 with "An Internal Server Error occurred."; no
    table changes. *)
Theorem add_region_invalid_is_500 (E : Env) (json_data : json) (w : World) :
  (∀ d, json_data = JObj d →
     schema_valid (region_field_ok E) d = false ∨
     has_fields (region_required E) d = false) →
  let out := add_region E json_data w in
  out.1 = Ok server_error ∧
  regions out.2 = regions w ∧ events out.2 = events w ∧ users out.2 = users w.
Proof.
  intros Hbad out. subst out. unfold add_region, schema_validate.
  destruct json_data; run; try by repeat split.
  destruct (Hbad m eq_refl) as [-> | ->]; cbn [andb orb]; run.
  - by repeat split.
  - rewrite andb_false_r. run. by repeat split.
Qed.

Lemma add_region_invalid_is_500_witness :
  (add_region Fixture.env (JObj {[ "NOC" := JStr "ITA" ]}) Fixture.world).1
  = Ok server_error.
Proof.
  apply (add_region_invalid_is_500 Fixture.env (JObj {[ "NOC" := JStr "ITA" ]})
           Fixture.world).
  intros d [= <-]. right. vm_compute. reflexivity.
Defined.

(** X6.  POST /regions with an accepted body whose NOC code is already in
    the table reports no conflict: the schema loads the stored region of
    that code, the body is merged into it, and the answer is 200 with
    "Region added with NOC= <code>".  The GET that follows is answered 200
    with an object that has every field of the body with the value of the
    body, and every other field that the region had a value for with that
    value. *)
Theorem add_region_existing_code_overwrites (E : Env) (d a : gmap string json)
    (k : string) (w : World) :
  schema_valid (region_field_ok E) d = true →
  has_fields (region_required E) d = true →
  d !! "NOC" = Some (JStr k) →
  regions w !! k = Some a →
  let out := add_region E (JObj d) w in
  out.1 = Ok (make_response (message ("Region added with NOC= " ++ k)) 200) ∧
  (∃ shown,
     get_region k out.2 = (Ok (make_response (Json (JObj shown)) 200), out.2) ∧
     (∀ f v, d !! f = Some v → shown !! f = Some v) ∧
     (∀ f v, d !! f = None → a !! f = Some v → shown !! f = Some v)) ∧
  (∀ k', k' ≠ k → regions out.2 !! k' = regions w !! k').
Proof.
  intros Hvalid Hreq Hk Hrow out. subst out.
  rewrite (add_region_valid E d w Hvalid Hreq).
  rewrite (Region_make_instance_found d a k _ Hk Hrow).
  set (merged := d ∪ fields (Region_loaded (k, a))).
  assert (merged !! "NOC" = Some (JStr k)) as Hm
    by (subst merged; by rewrite lookup_merge, Hk).
  rewrite (Region_flush_in_place k merged _ Hm). cbn [fields fst snd].
  rewrite Hm. cbn. split; [reflexivity|]. split.
  - exists merged. split; [|split].
    + rewrite (get_region_found k (delete "NOC" merged)).
      * by rewrite insert_delete_eq, insert_id.
      * cbn [set_regions regions]. apply lookup_insert_eq.
    + intros f v Hf. subst merged. by rewrite lookup_merge, Hf.
    + intros f v Hd Ha. subst merged. rewrite lookup_merge, Hd.
      unfold Region_loaded, loaded. cbn [fields fst snd].
      rewrite lookup_insert_ne; [exact Ha|]. intros <-. by rewrite Hk in Hd.
  - intros k' Hne. cbn [set_regions regions]. by rewrite lookup_insert_ne.
Qed.

Lemma add_region_existing_code_overwrites_witness :
  (add_region Fixture.env (JObj {[ "NOC" := JStr "GBR"; "region" := JStr "UK" ]})
     Fixture.world).1
  = Ok (make_response (message "Region added with NOC= GBR") 200).
Proof.
  apply (add_region_existing_code_overwrites Fixture.env
           {[ "NOC" := JStr "GBR"; "region" := JStr "UK" ]}
           {[ "region" := JStr "Great Britain" ]} "GBR" Fixture.world).
  - vm_compute. reflexivity.
  - vm_compute. reflexivity.
  - vm_compute. reflexivity.
  - vm_compute. reflexivity.
Defined.

(** *** Updating regions: the handler behind the guard *)

(** X7.  [update_region] with a body that fails the validation (it is not
    an object, or a field of it does not validate) answers 500 with the text
    "Failed Marshmallow schema validation", whether or not the region
    exists, and the world is as it was. *)
Theorem update_region_invalid_body_is_500 (E : Env) (noc_code : string)
    (region_json : json) (w : World) :
  (∀ d, region_json = JObj d → schema_valid (region_field_ok E) d = false) →
  update_region E noc_code region_json w = (Ok validation_failed, w).
Proof.
  intros Hbad. rewrite update_region_lookup. destruct region_json;
    try (by apply update_region_merge_not_object).
  rewrite update_region_merge_object. by rewrite (Hbad m eq_refl).
Qed.

Lemma update_region_invalid_body_is_500_witness :
  update_region Fixture.env "NEW" (JObj {[ "bogus" := JStr "x" ]}) Fixture.world
  = (Ok validation_failed, Fixture.world).
Proof.
  apply (update_region_invalid_body_is_500 Fixture.env "NEW").
  intros d [= <-]. vm_compute. reflexivity.
Defined.

(** X8.  [update_region] of a stored region with an accepted body that names
    the NOC code of another stored region answers 500 with the text "An
    Internal Server Error occurred."; neither region changes. *)
Theorem update_region_code_taken_is_500 (E : Env) (noc_code k : string)
    (a b d : gmap string json) (w : World) :
  regions w !! noc_code = Some a →
  schema_valid (region_field_ok E) d = true →
  d !! "NOC" = Some (JStr k) → k ≠ noc_code →
  regions w !! k = Some b →
  update_region E noc_code (JObj d) w = (Ok update_failed, w).
Proof.
  intros Hrow Hvalid Hk Hne Htaken.
  rewrite (update_region_existing E noc_code a d w Hrow Hvalid).
  unfold Region_flush, flush. cbn [origin fields].
  rewrite lookup_merge, Hk. cbn.
  rewrite bool_decide_eq_false_2 by done.
  rewrite bool_decide_eq_true_2; [reflexivity|]. by rewrite Htaken.
Qed.

Lemma update_region_code_taken_is_500_witness :
  update_region Fixture.env "NEW" (JObj {[ "NOC" := JStr "GBR" ]}) Fixture.world
  = (Ok update_failed, Fixture.world).
Proof.
  apply (update_region_code_taken_is_500 Fixture.env "NEW" "GBR"
           {[ "region" := JStr "New Region"; "notes" := JStr "A note" ]}
           {[ "region" := JStr "Great Britain" ]}).
  - vm_compute. reflexivity.
  - vm_compute. reflexivity.
  - vm_compute. reflexivity.
  - discriminate.
  - vm_compute. reflexivity.
Defined.

Lemma merge_twice (d r : gmap string json) : d ∪ (d ∪ r) = d ∪ r.
Proof.
  apply map_eq. intros f. rewrite !lookup_merge. by destruct (d !! f).
Qed.

(** X9.  [update_region] is idempotent on a body that leaves the key alone:
    after one accepted update of a stored region, the same update again
    answers 200 and changes nothing. *)
Theorem update_region_idempotent (E : Env) (noc_code : string)
    (a d : gmap string json) (w : World) :
  regions w !! noc_code = Some a →
  schema_valid (region_field_ok E) d = true →
  (d !! "NOC" = None ∨ d !! "NOC" = Some (JStr noc_code)) →
  let once := update_region E noc_code (JObj d) w in
  once.1 = Ok (region_updated noc_code) ∧
  update_region E noc_code (JObj d) once.2 = (Ok (region_updated noc_code), once.2).
Proof.
  intros Hrow Hvalid Hkey once. subst once.
  rewrite (update_region_existing E noc_code a d w Hrow Hvalid).
  set (merged := d ∪ fields (Region_loaded (noc_code, a))).
  assert (merged !! "NOC" = Some (JStr noc_code)) as Hk.
  { subst merged. rewrite lookup_merge. destruct Hkey as [->| ->]; [|reflexivity].
    unfold Region_loaded, loaded. cbn [fields fst snd]. apply lookup_insert_eq. }
  rewrite (Region_flush_in_place _ _ _ Hk). cbn [fst snd].
  split; [reflexivity|].
  rewrite (update_region_existing E noc_code (delete "NOC" merged) d); [|
    cbn [set_regions regions]; apply lookup_insert_eq | exact Hvalid].
  rewrite (Region_loaded_stored _ _ Hk).
  assert (d ∪ merged = merged) as -> by (subst merged; apply merge_twice).
  rewrite (Region_flush_in_place _ _ _ Hk).
  cbn [set_regions regions events users ticks log]. by rewrite insert_insert_eq.
Qed.

Lemma update_region_idempotent_witness :
  let once := update_region Fixture.env "NEW"
                (JObj {[ "notes" := JStr "An updated note" ]}) Fixture.world in
  update_region Fixture.env "NEW" (JObj {[ "notes" := JStr "An updated note" ]}) once.2
  = (Ok (region_updated "NEW"), once.2).
Proof.
  apply (update_region_idempotent Fixture.env "NEW"
           {[ "region" := JStr "New Region"; "notes" := JStr "A note" ]}
           {[ "notes" := JStr "An updated note" ]} Fixture.world).
  - vm_compute. reflexivity.
  - vm_compute. reflexivity.
  - left. vm_compute. reflexivity.
Defined.

(** X10.  [update_region] for a code that no region has, with an accepted
    body that has no NOC: the object made from the body alone has no
    primary key, the commit fails, and the answer is 500 with the text "An
    Internal Server Error occurred."; the world is as it was. *)
Theorem update_region_missing_row_without_code_is_500 (E : Env)
    (noc_code : string) (d : gmap string json) (w : World) :
  regions w !! noc_code = None →
  schema_valid (region_field_ok E) d = true →
  d !! "NOC" = None →
  update_region E noc_code (JObj d) w = (Ok update_failed, w).
Proof.
  intros Hrow Hvalid Hk. rewrite update_region_lookup, Hrow.
  rewrite update_region_merge_object, Hvalid.
  unfold Region_make_instance, make_instance, get_instance, Region_flush, flush.
  cbn [fmap option_fmap option_map]. rewrite Hk. cbn. by rewrite Hk.
Qed.

Lemma update_region_missing_row_without_code_is_500_witness :
  update_region Fixture.env "XXX" (JObj {[ "notes" := JStr "n" ]}) Fixture.world
  = (Ok update_failed, Fixture.world).
Proof.
  apply (update_region_missing_row_without_code_is_500 Fixture.env "XXX").
  - vm_compute. reflexivity.
  - vm_compute. reflexivity.
  - vm_compute. reflexivity.
Defined.



(** *** Login and registration *)

(** X12.  [login] never writes to the database: regions, events and users
    are the same after it on every input, also when it raises.  Unless the
    answer is 201 the whole world is as it was: the clock is read and the
    log written only for a successful login. *)
Theorem login_never_writes (E : Env) (auth : json) (w : World) :
  let out := login E auth w in
  regions out.2 = regions w ∧ events out.2 = events w ∧ users out.2 = users w ∧
  (status (respond out.1) ≠ 201 → out.2 = w).
Proof.
  intros out. subst out.
  destruct (truthy auth) eqn:Ht; [|by rewrite login_falsy_body].
  unfold login, py_get. run. rewrite Ht. cbn [negb].
  destruct auth as [|b|n|s|l|m]; run; try done.
  destruct (truthy (dict_get m "email")); cbn [negb]; run; [|done].
  destruct (truthy (dict_get m "password")); cbn [negb]; run; [|done].
  destruct (select_users_by_email (dict_get m "email") w) as [|u [|u' us]];
    unfold scalar_one_or_none; run; try done.
  unfold check_password.
  destruct (dict_get m "password") as [| | |p| |]; run; try done.
  destruct (check_password_hash E (password_hash u) p); run; [|done].
  cbn [fst snd respond status make_response]. by repeat split.
Qed.

(** X13.  [login] with a body that is truthy and not an object (a non-empty
    array or string, a number, [true]) raises [AttributeError] at
    [auth.get]: nothing catches it, the request is answered 500 and the
    world is as it was. *)
Theorem login_non_object_body_raises (E : Env) (auth : json) (w : World) :
  truthy auth = true → (∀ m, auth ≠ JObj m) →
  login E auth w = (Raise AttributeError, w).
Proof.
  intros Ht Hno. unfold login, py_get. run. rewrite Ht. cbn [negb].
  destruct auth; run; try reflexivity. by destruct (Hno m).
Qed.

Lemma login_non_object_body_raises_witness :
  status (respond (login Fixture.env (JArr [JStr "ann@example.com"])
                     Fixture.world).1) = 500.
Proof.
  rewrite (login_non_object_body_raises Fixture.env
             (JArr [JStr "ann@example.com"]) Fixture.world);
    [reflexivity | reflexivity | discriminate].
Defined.

Lemma register_new_user (E : Env) (m : gmap string json) (e p : string) (w : World) :
  dict_get m "email" = JStr e → dict_get m "password" = JStr p →
  (∀ u, u ∈ users w → email u ≠ e) →
  register E (JObj m) w =
    (Ok registered,
     with_user E (mkUser (next_id (id <$> users w)) e (generate_password_hash E p)) w).
Proof.
  intros He Hp Hnone. rewrite register_object, He, Hp.
  rewrite (select_users_none e w Hnone). by rewrite insert_user_fresh.
Qed.

Lemma select_new_user (E : Env) (u : User) (w : World) :
  (∀ v, v ∈ users w → email v ≠ email u) →
  select_users_by_email (JStr (email u)) (with_user E u w) = [u].
Proof.
  intros Hnone. unfold select_users_by_email, with_user. cbn [users].
  rewrite filter_app, (filter_email_none _ _ Hnone).
  rewrite filter_cons, filter_nil. by rewrite decide_True.
Qed.

(** X14.  Registration, then login: after [register] has accepted an email
    that nobody had and a password, both non-empty strings, [login] with the
    same email and password is answered 201, provided the password check
    accepts a password against its own hash. *)
Theorem register_then_login (E : Env) (m : gmap string json) (e p : string)
    (w : World) :
  dict_get m "email" = JStr e → dict_get m "password" = JStr p →
  e ≠ "" → p ≠ "" →
  (∀ u, u ∈ users w → email u ≠ e) →
  check_password_hash E (generate_password_hash E p) p = true →
  let out := register E (JObj m) w in
  out.1 = Ok registered ∧
  status (respond (login E (JObj m) out.2).1) = 201.
Proof.
  intros He Hp Hne Hnp Hnone Hhash out. subst out.
  rewrite (register_new_user E m e p w He Hp Hnone). split; [reflexivity|].
  cbn [snd]. rewrite (login_credentials E m e p _ He Hp Hne Hnp).
  set (u := mkUser _ e _).
  rewrite (select_new_user E u w Hnone
           : select_users_by_email (JStr e) (with_user E u w) = [u]).
  subst u. cbn [password_hash]. by rewrite Hhash.
Qed.

Lemma register_then_login_witness :
  status (respond (login Fixture.env (Fixture.credentials "bob@example.com" "pw")
                     (register Fixture.env
                        (Fixture.credentials "bob@example.com" "pw")
                        Fixture.world).2).1) = 201.
Proof.
  apply (register_then_login Fixture.env
           {[ "email" := JStr "bob@example.com"; "password" := JStr "pw" ]}
           "bob@example.com" "pw" Fixture.world).
  - reflexivity.
  - reflexivity.
  - discriminate.
  - discriminate.
  - intros u Hin. apply list_elem_of_singleton in Hin as ->. discriminate.
  - reflexivity.
Defined.

(** X15.  Registering the same email twice: when the first [register] of an
    email that nobody had succeeds, a second one with that email (and any
    password) is answered 409 "User already exists. Please Log in." and
    changes nothing. *)
Theorem register_twice_is_409 (E : Env) (m m' : gmap string json) (e p : string)
    (w : World) :
  dict_get m "email" = JStr e → dict_get m "password" = JStr p →
  dict_get m' "email" = JStr e →
  (∀ u, u ∈ users w → email u ≠ e) →
  let out := register E (JObj m) w in
  out.1 = Ok registered ∧
  register E (JObj m') out.2 = (Ok already_exists, out.2).
Proof.
  intros He Hp He' Hnone out. subst out.
  rewrite (register_new_user E m e p w He Hp Hnone). split; [reflexivity|].
  cbn [snd]. rewrite register_object, He'.
  set (u := mkUser _ e _).
  by rewrite (select_new_user E u w Hnone
              : select_users_by_email (JStr e) (with_user E u w) = [u]).
Qed.

Lemma register_twice_is_409_witness :
  status (respond (register Fixture.env (Fixture.credentials "bob@example.com" "other")
                     (register Fixture.env
                        (Fixture.credentials "bob@example.com" "pw")
                        Fixture.world).2).1) = 409.
Proof.
  destruct (register_twice_is_409 Fixture.env
              {[ "email" := JStr "bob@example.com"; "password" := JStr "pw" ]}
              {[ "email" := JStr "bob@example.com"; "password" := JStr "other" ]}
              "bob@example.com" "pw" Fixture.world) as [_ H].
  - reflexivity.
  - reflexivity.
  - reflexivity.
  - intros u Hin. apply list_elem_of_singleton in Hin as ->. discriminate.
  - unfold Fixture.credentials. by rewrite H.
Defined.

(** X16.  [register] only ever appends: on every input it leaves regions
    and events alone, and the users after it are the users before it, or
    those followed by one new user whose email nobody had, in which case the
    answer is 201.  It keeps the store at one user per email. *)
Theorem register_only_appends (E : Env) (post_data : json) (w : World) :
  let out := register E post_data w in
  regions out.2 = regions w ∧ events out.2 = events w ∧
  (users out.2 = users w ∨
   ∃ u, users out.2 = (users w ++ [u])%list ∧ (email u ∉ email <$> users w) ∧
        out.1 = Ok registered) ∧
  (unique_emails w → unique_emails out.2).
Proof.
  intros out. subst out.
  split; [|split; [|split; [|apply register_keeps_unique_emails]]];
    (destruct post_data; try (rewrite register_not_object by discriminate; by eauto));
    rewrite register_object;
    (destruct (select_users_by_email _ w) as [|u [|u' us]]; try by eauto);
    (destruct (dict_get m "password") as [| | |p| |]; try by eauto);
    unfold insert_user;
    (destruct (dict_get m "email") as [| | |a| |]; try by eauto);
    (destruct (decide (a ∈ email <$> users w)) as [Hin|Hout];
     [rewrite bool_decide_eq_true_2 by done; by eauto
     |rewrite bool_decide_eq_false_2 by done]); try reflexivity.
  right. eexists. split; [reflexivity|]. by split.
Qed.

Lemma register_only_appends_witness :
  unique_emails (register Fixture.env (Fixture.credentials "bob@example.com" "pw")
                   Fixture.world).2.
Proof.
  apply (register_only_appends Fixture.env
           (Fixture.credentials "bob@example.com" "pw") Fixture.world).
  unfold unique_emails. apply (bool_decide_unpack _). vm_compute. exact I.
Defined.



(** *** The event routes *)

Lemma select_events_by_id_missing (E : Env) (event_id : Z) (w : World) :
  "id" ∈ Event_attrs E → events w !! event_id = None →
  select_events_by E "id" event_id w = (Ok [], w).
Proof.
  intros Hattr Hrow. unfold select_events_by. rewrite bool_decide_eq_true_2 by done.
  run. f_equal. f_equal.
  destruct (filter _ (map_to_list (events w))) as [|[k b] l] eqn:Hf; [reflexivity|].
  assert ((k, b) ∈ filter (λ r, has_int (Event_loaded r) "id" event_id = true)
                     (map_to_list (events w))) as Hin by (rewrite Hf; left).
  apply list_elem_of_filter in Hin as [Hint Hin].
  apply elem_of_map_to_list in Hin.
  unfold has_int, Event_loaded, loaded in Hint. cbn [fields fst snd] in Hint.
  rewrite lookup_insert_eq in Hint. apply Z.eqb_eq in Hint. subst k.
  by rewrite Hrow in Hin.
Qed.

(** X18.  GET and DELETE of an event id that no event has, when [Event]
    maps [id]: [scalar_one] raises [NoResultFound] and neither handler
    catches it, so the request is answered 500 where GET /regions/<code>
    answers 404; the world is as it was. *)
Theorem event_missing_id_raises (E : Env) (event_id : Z) (w : World) :
  "id" ∈ Event_attrs E → events w !! event_id = None →
  get_event E event_id w = (Raise NoResultFound, w) ∧
  delete_event E event_id w = (Raise NoResultFound, w) ∧
  status (respond (get_event E event_id w).1) = 500.
Proof.
  intros Hattr Hrow.
  assert (get_event E event_id w = (Raise NoResultFound, w)) as Hget.
  { unfold get_event. unfold mbind at 1, M_bind at 1.
    by rewrite (select_events_by_id_missing E event_id w Hattr Hrow). }
  split; [exact Hget|]. split; [|by rewrite Hget].
  unfold delete_event. unfold mbind at 1, M_bind at 1.
  by rewrite (select_events_by_id_missing E event_id w Hattr Hrow).
Qed.

Lemma event_missing_id_raises_witness :
  status (respond (get_event Fixture.env 7 Fixture.world).1) = 500.
Proof.
  apply (event_missing_id_raises Fixture.env 7 Fixture.world).
  - apply (bool_decide_unpack _). vm_compute. exact I.
  - vm_compute. reflexivity.
Defined.

(** X19.  DELETE /events/<id> for a stored event, when [Event] maps [id], is
    answered 200 with "Event <id> deleted."; that event is gone, every other
    event and the rest of the world are as they were, and the GET of the
    same id that follows raises [NoResultFound]. *)
Theorem delete_event_removes_one_row (E : Env) (event_id : Z)
    (a : gmap string json) (w : World) :
  "id" ∈ Event_attrs E → events w !! event_id = Some a →
  let out := delete_event E event_id w in
  out = (Ok (make_response (message ("Event " ++ pretty event_id ++ " deleted.")) 200),
         set_events (delete event_id (events w)) w) ∧
  (∀ k, k ≠ event_id → events out.2 !! k = events w !! k) ∧
  get_event E event_id out.2 = (Raise NoResultFound, out.2).
Proof.
  intros Hattr Hrow out.
  assert (out = (Ok (make_response
                       (message ("Event " ++ pretty event_id ++ " deleted.")) 200),
                 set_events (delete event_id (events w)) w)) as ->.
  { subst out. unfold delete_event. unfold mbind at 1, M_bind at 1.
    by rewrite (select_events_by_id E event_id a w Hattr Hrow). }
  split; [reflexivity|]. cbn [snd set_events events]. split.
  - intros k Hk. by apply lookup_delete_ne.
  - unfold get_event. unfold mbind at 1, M_bind at 1.
    rewrite select_events_by_id_missing; [reflexivity | exact Hattr |].
    apply lookup_delete_eq.
Qed.

Lemma delete_event_removes_one_row_witness :
  get_event Fixture.env 1 (delete_event Fixture.env 1 Fixture.world).2
  = (Raise NoResultFound, (delete_event Fixture.env 1 Fixture.world).2).
Proof.
  apply (delete_event_removes_one_row Fixture.env 1
           {[ "type" := JStr "summer"; "host" := JStr "Rome" ]} Fixture.world).
  - apply (bool_decide_unpack _). vm_compute. exact I.
  - vm_compute. reflexivity.
Defined.

(** X20.  GET /events answers 200 with an array that has one element per
    stored event, the world unchanged; when [Event] maps [id], its elements
    are exactly the bodies that GET /events/<id> gives for the stored
    ids. *)
Theorem get_events_lists_every_event (E : Env) (w : World) :
  ∃ items,
    get_events w = (Ok (make_response (Json (JArr items)) 200), w) ∧
    length items = size (events w) ∧
    ("id" ∈ Event_attrs E →
     ∀ j, j ∈ items ↔
          ∃ event_id, is_Some (events w !! event_id) ∧
                      respond (get_event E event_id w).1 = make_response (Json j) 200).
Proof.
  exists (dump <$> (Event_loaded <$> map_to_list (events w))).
  split; [reflexivity|]. split.
  - by rewrite !length_fmap, length_map_to_list.
  - intros Hattr j. rewrite <- list_fmap_compose. rewrite list_elem_of_fmap.
    assert (∀ k a, events w !! k = Some a →
              get_event E k w =
                (Ok (make_response (Json (dump (Event_loaded (k, a)))) 200), w)) as Hget.
    { intros k a Hrow. unfold get_event. unfold mbind at 1, M_bind at 1.
      by rewrite (select_events_by_id E k a w Hattr Hrow). }
    split.
    + intros ([k a] & -> & Hin). apply elem_of_map_to_list in Hin.
      exists k. split; [eauto|]. by rewrite (Hget k a Hin).
    + intros (k & [a Hrow] & Hresp). exists (k, a).
      split; [|by apply elem_of_map_to_list].
      rewrite (Hget k a Hrow) in Hresp. cbn [fst respond] in Hresp.
      by injection Hresp as <-.
Qed.

Lemma get_events_lists_every_event_witness :
  ∃ items,
    get_events Fixture.world = (Ok (make_response (Json (JArr items)) 200), Fixture.world) ∧
    length items = 1%nat.
Proof.
  destruct (get_events_lists_every_event Fixture.env Fixture.world)
    as (items & Hget & Hlen & _).
  exists items. split; [exact Hget|]. rewrite Hlen. vm_compute. reflexivity.
Defined.

(** *** Creating events *)

(** The id that the store generates is not in the table. *)
Lemma Event_next_id_fresh (tbl : gmap Z (gmap string json)) :
  tbl !! Event_next_id tbl = None.
Proof.
  destruct (tbl !! Event_next_id tbl) as [a|] eqn:Hrow; [|reflexivity].
  exfalso. apply elem_of_map_to_list in Hrow.
  apply (list_elem_of_fmap_2 fst) in Hrow. cbn [fst] in Hrow.
  apply next_id_above in Hrow. unfold Event_next_id in Hrow. lia.
Qed.

(** X21.  POST /events with a body that the schema accepts in full and that
    has no id is answered 200 with "Event added with id= <n>", where n is
    an id that no event had; the GET of that id that follows (when [Event]
    maps [id]) is answered 200 with an object that has that id and every
    field of the body with the value that was sent, and the events that
    were there before are as they were. *)
Theorem add_event_then_get (E : Env) (event_required : list string)
    (d : gmap string json) (w : World) :
  "id" ∈ Event_attrs E →
  schema_valid (event_field_ok E) d = true →
  has_fields event_required d = true →
  d !! "id" = None →
  let out := add_event E event_required (JObj d) w in
  ∃ n shown,
    events w !! n = None ∧
    out.1 = Ok (make_response (message ("Event added with id= " ++ pretty n)) 200) ∧
    get_event E n out.2 = (Ok (make_response (Json (JObj shown)) 200), out.2) ∧
    shown !! "id" = Some (JNum n) ∧
    (∀ f v, d !! f = Some v → shown !! f = Some v) ∧
    (∀ k, k ≠ n → events out.2 !! k = events w !! k).
Proof.
  intros Hattr Hvalid Hreq Hid out. subst out.
  set (n := Event_next_id (events w)).
  exists n, (<["id" := JNum n]> d).
  split; [apply Event_next_id_fresh|].
  unfold add_event, schema_validate. run. rewrite Hvalid, Hreq. cbn [andb orb]. run.
  unfold Event_make_instance, make_instance, get_instance, Event_flush, flush,
    Event_identity.
  rewrite Hid. cbn. rewrite Hid. cbn. unfold commit. run. fold n.
  rewrite (delete_id _ _ Hid). cbn [fst snd].
  split; [reflexivity|]. split; [|split; [|split]].
  - unfold get_event. unfold mbind at 1, M_bind at 1.
    rewrite (select_events_by_id E n d); [reflexivity | exact Hattr |].
    cbn [set_events events]. apply lookup_insert_eq.
  - apply lookup_insert_eq.
  - intros f v Hf. rewrite lookup_insert_ne; [exact Hf|].
    intros <-. by rewrite Hid in Hf.
  - intros k Hk. cbn [set_events events]. by rewrite lookup_insert_ne.
Qed.

Lemma add_event_then_get_witness :
  ∃ n : Z, (add_event Fixture.env ["type"] (JObj {[ "type" := JStr "winter" ]})
          Fixture.world).1
       = Ok (make_response (message ("Event added with id= " ++ pretty n)) 200).
Proof.
  destruct (add_event_then_get Fixture.env ["type"]
              {[ "type" := JStr "winter" ]} Fixture.world)
    as (n & shown & _ & Hresp & _).
  - apply (bool_decide_unpack _). vm_compute. exact I.
  - vm_compute. reflexivity.
  - vm_compute. reflexivity.
  - vm_compute. reflexivity.
  - exists n. exact Hresp.
Defined.

(** X22.  POST /events with a body that fails the validation raises
    [ValidationError] and nothing catches it: the request is answered with
    Flask's page for status 500, not with the JSON message that POST
    /regions gives, and the world is as it was. *)
Theorem add_event_invalid_raises (E : Env) (event_required : list string)
    (ev_json : json) (w : World) :
  (∀ d, ev_json = JObj d →
     schema_valid (event_field_ok E) d = false ∨
     has_fields event_required d = false) →
  add_event E event_required ev_json w = (Raise ValidationError, w) ∧
  respond (add_event E event_required ev_json w).1
  = mkResponse 500 (Text "Internal Server Error").
Proof.
  intros Hbad.
  assert (add_event E event_required ev_json w = (Raise ValidationError, w)) as ->.
  { unfold add_event, schema_validate. destruct ev_json; run; try reflexivity.
    destruct (Hbad m eq_refl) as [-> | ->]; cbn [andb orb]; run; [reflexivity|].
    rewrite andb_false_r. reflexivity. }
  by split.
Qed.

Lemma add_event_invalid_raises_witness :
  add_event Fixture.env ["type"] (JObj {[ "host" := JStr "Oslo" ]}) Fixture.world
  = (Raise ValidationError, Fixture.world).
Proof.
  apply (add_event_invalid_raises Fixture.env ["type"]).
  intros d [= <-]. right. vm_compute. reflexivity.
Defined.
